(** * Scoring of the raw delay-discounting data

    A shallow embedding of the notebook
    [analysis/02_score_discounting_data.ipynb]: the filename parser
    [parse_filename], the output-directory cell, and the batch cell that
    fits every model of [model_list] to every data file, accumulates one
    one-row data frame per (file, model) in [fit_data] and finally
    concatenates and exports one [.csv] per model.

    Python exceptions are values of [exn]; code that may raise returns
    [exn + A].  The objects the notebook allocates (data frames) live in
    an explicit heap and are referred to by location, so that aliasing
    and mutation are visible.  The modules [models] and [plot], PyMC3,
    pandas' reader and matplotlib are external to the notebook: they
    enter as the fields of a [World]. *)

From Stdlib Require Import ZArith Ascii String Floats.PrimFloat.
From stdpp Require Import base option list gmap strings pretty.



(** ** Exceptions *)

Inductive exn : Type :=
| ValueError (msg : string)
| FileNotFoundError (path : string)
| FileExistsError (path : string)
| IndexError (msg : string)
| TypeError (msg : string)
| AttributeError (msg : string)
| ExternalError (msg : string).

(** ** Strings: [str.rfind], slicing, [str.rstrip], [str.split] *)

Module Str.

(** [s.rfind(c)]: the index of the last occurrence of [c], or [-1]. *)
Fixpoint rfind (c : ascii) (s : string) : Z :=
  match s with
  | EmptyString => (-1)%Z
  | String a s' =>
      let r := rfind c s' in
      if (0 <=? r)%Z then (r + 1)%Z
      else if Ascii.eqb a c then 0%Z else (-1)%Z
  end.

(** [s[:i]] and [s[i:]] for [0 <= i]. *)
Fixpoint take (i : nat) (s : string) : string :=
  match i, s with
  | S i', String a s' => String a (take i' s')
  | _, _ => EmptyString
  end.

Fixpoint drop (i : nat) (s : string) : string :=
  match i, s with
  | S i', String _ s' => drop i' s'
  | _, _ => s
  end.

(** [s == c * len(s)] *)
Fixpoint all_char (c : ascii) (s : string) : bool :=
  match s with
  | EmptyString => true
  | String a s' => Ascii.eqb a c && all_char c s'
  end.

(** [s.rstrip(c)] for a one-character [c]. *)
Fixpoint rstrip (c : ascii) (s : string) : string :=
  match s with
  | EmptyString => EmptyString
  | String a s' =>
      match rstrip c s' with
      | EmptyString => if Ascii.eqb a c then EmptyString else String a EmptyString
      | t => String a t
      end
  end.

(** [s.split(c)] for a one-character separator: every occurrence of
    [c] ends a field, so the result always has at least one field. *)
Fixpoint split (c : ascii) (s : string) : list string :=
  match s with
  | EmptyString => [EmptyString]
  | String a s' =>
      if Ascii.eqb a c then EmptyString :: split c s'
      else match split c s' with
           | [] => [String a EmptyString]
           | w :: ws => String a w :: ws
           end
  end.

(** [c not in s] *)
Fixpoint free_of (c : ascii) (s : string) : bool :=
  match s with
  | EmptyString => true
  | String a s' => negb (Ascii.eqb a c) && free_of c s'
  end.

End Str.

(** ** [os.path.split] (POSIX) and [parse_filename] *)

Definition sep : ascii := "/"%char.
Definition hyphen : ascii := "-"%char.

(** [posixpath.split]:
<<
    i = p.rfind(sep) + 1
    head, tail = p[:i], p[i:]
    if head and head != sep*len(head):
        head = head.rstrip(sep)
    return head, tail
>> *)
Definition os_path_split (p : string) : string * string :=
  let i := Z.to_nat (Str.rfind sep p + 1) in
  let head := Str.take i p in
  let tail := Str.drop i p in
  let head' :=
    if negb (String.eqb head "") && negb (Str.all_char sep head)
    then Str.rstrip sep head else head in
  (head', tail).

(** Unpacking of a list into five targets. *)
Definition unpack5 {A} (l : list A) : exn + (A * A * A * A * A) :=
  match l with
  | [a; b; c; d; e] => inr (a, b, c, d, e)
  | _ =>
      if Nat.ltb (length l) 5
      then inl (ValueError ("not enough values to unpack (expected 5, got "
                            +:+ pretty (length l) +:+ ")"))
      else inl (ValueError "too many values to unpack (expected 5)")
  end.

(** <<
    def parse_filename(fname):
        path, file = os.path.split(fname)
        initials, commodity, condition, date, time = file.split('-')
        return (initials, commodity, condition)
>> *)
Definition parse_filename (fname : string) : exn + (string * string * string) :=
  let '(path, file) := os_path_split fname in
  match unpack5 (Str.split hyphen file) with
  | inl e => inl e
  | inr (initials, commodity, condition, date, time) =>
      inr (initials, commodity, condition)
  end.

(** ** Python dictionaries

    A [dict] keeps its items in insertion order; assigning to a key that
    is already present replaces the value and keeps the position. *)

Abbreviation dict V := (list (string * V)).

Fixpoint dict_set {V} (k : string) (v : V) (d : dict V) : dict V :=
  match d with
  | [] => [(k, v)]
  | (k', v') :: d' =>
      if String.eqb k k' then (k, v) :: d' else (k', v') :: dict_set k v d'
  end.

(** [d.update(other)] *)
Definition dict_update {V} (d other : dict V) : dict V :=
  fold_left (fun acc kv => dict_set kv.1 kv.2 acc) other d.

(** The literal [{k1: v1, ..., kn: vn}]. *)
Definition dict_lit {V} (items : list (string * V)) : dict V :=
  dict_update [] items.

Definition dict_keys {V} (d : dict V) : list string := d.*1.

Fixpoint dict_get {V} (k : string) (d : dict V) : option V :=
  match d with
  | [] => None
  | (k', v) :: d' => if String.eqb k k' then Some v else dict_get k d'
  end.

(** [enumerate(d.items())] *)
Definition enumerate_items {V} (d : dict V) : list (nat * (string * V)) :=
  imap (fun i kv => (i, kv)) d.

(** ** Data frames *)

Inductive value : Type :=
| VStr (s : string)
| VNum (x : float).

Definition NaN : value := VNum nan.

(** A frame is row-major here: [columns] are the labels, every element
    of [records] has one cell per column. *)
Record DataFrame : Type := mkDataFrame {
  columns : list string;
  records : list (list value)
}.

(** A value of the dictionary handed to [pd.DataFrame.from_dict]: a
    Python list (one cell per row) or a scalar (broadcast). *)
Inductive series : Type :=
| Scalar (v : value)
| Column (vs : list value).

Definition series_len (s : series) : option nat :=
  match s with
  | Scalar _ => None
  | Column vs => Some (length vs)
  end.

Definition series_cell (i : nat) (s : series) : value :=
  match s with
  | Scalar v => v
  | Column vs => default NaN (vs !! i)
  end.

(** [pd.DataFrame.from_dict(info)] with the default [orient='columns']:
    the keys become the columns, in the order of the dictionary; the
    lists must agree on their length and scalars are broadcast to it. *)
Definition DataFrame_from_dict (info : dict series) : exn + DataFrame :=
  match omap (fun kv => series_len kv.2) info with
  | [] => inl (ValueError "If using all scalar values, you must pass an index")
  | n :: ns =>
      if forallb (Nat.eqb n) ns
      then inr {| columns := dict_keys info;
                  records := (fun i => (fun kv => series_cell i kv.2) <$> info) <$> seq 0 n |}
      else inl (ValueError "arrays must all be same length")
  end.

(** The cell of a record under a column label. *)
Definition cell (cols : list string) (r : list value) (c : string) : option value :=
  dict_get c (zip cols r).

Definition reindex (cols : list string) (df : DataFrame) : list (list value) :=
  (fun r => (fun c => default NaN (cell (columns df) r c)) <$> cols) <$> records df.

Definition same_columns (a b : list string) : bool :=
  bool_decide (a = b).

(** [pd.concat(frames, ignore_index=True)]: an empty list is an error;
    frames whose column labels are all equal keep them; otherwise the
    columns are the outer join of the labels, in the order [union] (which
    depends on pandas' [sort] default), and missing cells are NaN. *)
Definition pd_concat (union : list (list string) -> list string)
    (frames : list DataFrame) : exn + DataFrame :=
  match frames with
  | [] => inl (ValueError "No objects to concatenate")
  | df :: rest =>
      if forallb (fun d => same_columns (columns d) (columns df)) rest
      then inr {| columns := columns df;
                  records := concat (records <$> frames) |}
      else let cols := union (columns <$> frames) in
           inr {| columns := cols;
                  records := concat (reindex cols <$> frames) |}
  end.

(** ** The configuration cells *)

Inductive model_class : Type :=
| Exponential
| Hyperbolic
| ModifiedRachlin
| Hyperboloid.

(** <<
    model_list = {'Exponential': models.Exponential,
                  'Hyperbolic': models.Hyperbolic,
                  'ModifiedRachlin': models.ModifiedRachlin,
                  'Hyperboloid': models.Hyperboloid}
>> *)
Definition model_list : dict model_class :=
  dict_lit [("Exponential", Exponential);
            ("Hyperbolic", Hyperbolic);
            ("ModifiedRachlin", ModifiedRachlin);
            ("Hyperboloid", Hyperboloid)].

Record NutsKwargs : Type := {
  target_accept : float
}.

Record SampleOptions : Type := {
  tune : Z;
  draws : Z;
  chains : Z;
  cores : Z;
  nuts_kwargs : NutsKwargs
}.

(** <<
    sample_options = {'tune': 1_000, 'draws': 2_000,
                      'chains': 4, 'cores': 4,
                      'nuts_kwargs': {'target_accept': 0.95}}
>>
    [0.95] is the binary64 number nearest to it. *)
Definition sample_options : SampleOptions :=
  {| tune := 1000; draws := 2000; chains := 4; cores := 4;
     nuts_kwargs := {| target_accept := 0x1.e666666666666p-1%float |} |}.

Definition out_dir : string := "fits/".

Definition info_keys : list string :=
  ["id"; "commodity"; "condition"; "model"; "log_loss"; "AUC"; "WAIC"; "roc_auc"].

Definition csv_name (model_name : string) : string :=
  "parameter_estimation_" +:+ model_name +:+ ".csv".

Definition savename_of (initials commodity condition : string) : string :=
  "fits/" +:+ initials +:+ "_" +:+ commodity +:+ "_" +:+ condition +:+ ".pdf".

Abbreviation loc := nat.

(** An element of [fit_data]: a Python list of row frames while the
    files are processed, the concatenated frame after the export. *)
Inductive slot : Type :=
| Rows (rs : list loc)
| Frame (r : loc).

Section Notebook.

(** [Data]: what [pd.read_csv] returns; [Model]: an object of one of
    the classes of the module [models]; [Comparison]: the table
    returned by [pm.compare]. *)
Context {Data Model Comparison : Type}.

(** Modelled from the spec: the modules [models] and [plot] and the
    libraries behind them are not part of the notebook.  A model is
    built from a data set, fitted with the sampling options, and then
    exposes its metrics (log-loss, AUC, WAIC, ROC-AUC) and its mean
    parameter estimates, a dictionary from parameter names to
    numbers.  Building, fitting, reading and comparing may raise. *)
Record World : Type := {
  read_csv : string -> exn + Data;
  build : model_class -> Data -> exn + Model;
  fit : Model -> SampleOptions -> exn + Model;
  metrics_log_loss : Model -> list float;
  metrics_AUC : Model -> float;
  metrics_WAIC : Model -> float;
  metrics_roc_auc : Model -> float;
  mean_parameters : Model -> dict float;
  np_median : list float -> float;
  pm_compare : list Model -> exn + Comparison;
  union_columns : list (list string) -> list string
}.

(** What is drawn on an axis, in drawing order. *)
Inductive artist : Type :=
| PlotData (d : Data)
| PlotModel (label : string) (m : Model)
| Legend
| Title (s : string)
| XLabel (s : string)
| YLabel (s : string)
| ComparePlot (c : Comparison).

(** [fig, ax = plt.subplots(1, 2)]: the two axes of a figure. *)
Definition figure : Type := list artist * list artist.

Inductive content : Type :=
| Pdf (fig : figure)
| Csv (header : list string) (rows : list (list value)).

(** Calls that leave the notebook, in the order they are made. *)
Inductive event : Type :=
| EvReadCsv (fname : string)
| EvFit (model_name : string)
| EvDisplayFrame (df : DataFrame)
| EvDisplayComparison (c : Comparison)
| EvSavefig (path : string)
| EvToCsv (path : string).

Record state : Type := mkState {
  st_heap : list DataFrame;
  st_dirs : gset string;
  st_files : gmap string content;
  st_log : list event
}.

(** Computations that read and write the state and may raise; the
    state at the point of the exception is kept. *)
Definition M (A : Type) : Type := state -> (exn + A) * state.

#[global] Instance M_ret : MRet M := fun A a s => (inr a, s).
#[global] Instance M_bind : MBind M := fun A B f m s =>
  match m s with
  | (inr a, s') => f a s'
  | (inl e, s') => (inl e, s')
  end.

Definition raise {A} (e : exn) : M A := fun s => (inl e, s).

Definition lift {A} (r : exn + A) : M A := fun s => (r, s).

Definition emit (ev : event) : M unit := fun s =>
  (inr tt, mkState (st_heap s) (st_dirs s) (st_files s) (st_log s ++ [ev])).

(** A new frame object. *)
Definition alloc (df : DataFrame) : M loc := fun s =>
  (inr (length (st_heap s)),
   mkState (st_heap s ++ [df]) (st_dirs s) (st_files s) (st_log s)).

(** Reading a frame object.  Locations come from [alloc] only, so the
    error branch is never taken (lemmas [alloc_deref] and
    [files_loop_ok]). *)
Definition deref (r : loc) : M DataFrame := fun s =>
  match st_heap s !! r with
  | Some df => (inr df, s)
  | None => (inl (ExternalError "no such object"), s)
  end.

Definition write_file (path : string) (c : content) : M unit := fun s =>
  (inr tt, mkState (st_heap s) (st_dirs s) (<[path := c]> (st_files s)) (st_log s)).

(** Python's [for x in l: b = f(b, x)]. *)
Fixpoint foldM {A B} (f : B -> A -> M B) (b : B) (l : list A) : M B :=
  match l with
  | [] => mret b
  | a :: l' => b' ← f b a; foldM f b' l'
  end.

(** [l[i]] and [l[i] = x] on a Python list, for [0 <= i]. *)
Definition getitem {A} (l : list A) (i : nat) : M A :=
  match l !! i with
  | Some x => mret x
  | None => raise (IndexError "list index out of range")
  end.

Definition setitem {A} (l : list A) (i : nat) (x : A) : M (list A) :=
  if Nat.ltb i (length l) then mret (<[i := x]> l)
  else raise (IndexError "list assignment index out of range").

Variable W : World.

(** *** The output-directory cell
<<
  out_dir = 'fits/'
  if not os.path.exists(out_dir):
      os.makedirs(out_dir)
>>
    The file system of the model is flat: a set of directories and a
    map from file paths to contents. *)

Definition os_path_exists (p : string) : M bool := fun s =>
  (inr (bool_decide (Str.rstrip sep p ∈ st_dirs s)), s).

Definition os_makedirs (p : string) : M unit := fun s =>
  let d := Str.rstrip sep p in
  if bool_decide (d ∈ st_dirs s) then (inl (FileExistsError p), s)
  else (inr tt, mkState (st_heap s) ({[d]} ∪ st_dirs s) (st_files s) (st_log s)).

Definition setup_out_dir : M unit :=
  b ← os_path_exists out_dir;
  if negb b then os_makedirs out_dir else mret tt.

(** [plt.savefig(path)] and [df.to_csv(path, index=False)] open their
    target for writing: the folder must exist, an existing file is
    replaced. *)
Definition open_w (path : string) (c : content) : M unit :=
  let d := (os_path_split path).1 in
  fun s =>
    if bool_decide (d = "") || bool_decide (d ∈ st_dirs s)
    then write_file path c s
    else (inl (FileNotFoundError path), s).

Definition plt_savefig (path : string) (fig : figure) : M unit :=
  _ ← emit (EvSavefig path); open_w path (Pdf fig).

Definition to_csv (path : string) (df : DataFrame) : M unit :=
  _ ← emit (EvToCsv path); open_w path (Csv (columns df) (records df)).

(** *** The batch cell *)

(** <<
      info = {'id': [initials], 'commodity': [commodity],
              'condition': [condition], 'model': [model_name],
              'log_loss': [np.median(models[m].metrics['log_loss'])],
              'AUC': [models[m].metrics['AUC']],
              'WAIC': [models[m].metrics['WAIC']],
              'roc_auc': [models[m].metrics['roc_auc']]}
      params = models[m].mean_parameters()
      info.update(params)
>> *)
Definition make_info (initials commodity condition model_name : string)
    (mo : Model) : dict series :=
  let info := dict_lit
    [("id", Column [VStr initials]);
     ("commodity", Column [VStr commodity]);
     ("condition", Column [VStr condition]);
     ("model", Column [VStr model_name]);
     ("log_loss", Column [VNum (np_median W (metrics_log_loss W mo))]);
     ("AUC", Column [VNum (metrics_AUC W mo)]);
     ("WAIC", Column [VNum (metrics_WAIC W mo)]);
     ("roc_auc", Column [VNum (metrics_roc_auc W mo)])] in
  let params := mean_parameters W mo in
  dict_update info (prod_map id (fun x => Scalar (VNum x)) <$> params).

(** The variables the loop over the models reads and writes. *)
Definition locals : Type := list (list loc) * list (option Model) * list artist.

(** One iteration of
<<
  for m, (model_name, model_build_func) in enumerate(model_list.items()):
      models[m] = model_build_func(data)
      models[m].fit(sample_options)
      models[m].plot(ax[0], label=model_name)
      info = ...
      row = pd.DataFrame.from_dict(info)
      display(row)
      fit_data[m].append(row)
>> *)
Definition fit_model (initials commodity condition : string) (data : Data)
    (vars : locals) (it : nat * (string * model_class)) : M locals :=
  let '(fit_data, models, ax0) := vars in
  let '(m, (model_name, model_build_func)) := it in
  built ← lift (build W model_build_func data);
  models ← setitem models m (Some built);
  _ ← emit (EvFit model_name);
  fitted ← lift (fit W built sample_options);
  let models := <[m := Some fitted]> models in
  let ax0 := ax0 ++ [PlotModel model_name fitted] in
  let info := make_info initials commodity condition model_name fitted in
  row ← lift (DataFrame_from_dict info);
  r ← alloc row;
  shown ← deref r;
  _ ← emit (EvDisplayFrame shown);
  rs ← getitem fit_data m;
  mret (<[m := rs ++ [r]]> fit_data, models, ax0).

(** [models[i].model], [models[i].trace] *)
Definition model_at (models : list (option Model)) (i : nat) : M Model :=
  o ← getitem models i;
  match o with
  | Some mo => mret mo
  | None => raise (AttributeError "'NoneType' object has no attribute 'model'")
  end.

(** The body of [for i, fname in enumerate(files)]. *)
Definition process_file (fit_data : list (list loc)) (fname : string)
    : M (list (list loc)) :=
  '(initials, commodity, condition) ← lift (parse_filename fname);
  _ ← emit (EvReadCsv fname);
  data ← lift (read_csv W fname);
  let ax0 := [PlotData data] in
  let models := [None; None; None; None] in
  '(fit_data, models, ax0) ←
    foldM (fit_model initials commodity condition data)
          (fit_data, models, ax0) (enumerate_items model_list);
  let ax0 := ax0 ++ [Legend;
                     Title (initials +:+ ", " +:+ commodity +:+ ", " +:+ condition);
                     XLabel "delay [days]";
                     YLabel "discount fraction"] in
  m0 ← model_at models 0;
  m1 ← model_at models 1;
  m2 ← model_at models 2;
  m3 ← model_at models 3;
  df_comp_WAIC ← lift (pm_compare W [m0; m1; m2; m3]);
  _ ← emit (EvDisplayComparison df_comp_WAIC);
  let ax1 := [ComparePlot df_comp_WAIC] in
  _ ← plt_savefig (savename_of initials commodity condition) (ax0, ax1);
  mret fit_data.

(** One iteration of
<<
  for m, (model_name, _) in enumerate(model_list.items()):
      fit_data[m] = pd.concat(fit_data[m], ignore_index=True)
      fit_data[m].to_csv(f'parameter_estimation_{model_name}.csv', index=False)
>> *)
Definition export_model (fit_data : list slot)
    (it : nat * (string * model_class)) : M (list slot) :=
  let '(m, (model_name, _)) := it in
  s ← getitem fit_data m;
  match s with
  | Frame _ =>
      raise (TypeError "first argument must be an iterable of pandas objects")
  | Rows rs =>
      frames ← foldM (fun acc r => df ← deref r; mret (acc ++ [df])) [] rs;
      df ← lift (pd_concat (union_columns W) frames);
      r ← alloc df;
      fit_data ← setitem fit_data m (Frame r);
      table ← deref r;
      _ ← to_csv (csv_name model_name) table;
      mret fit_data
  end.

(** The whole cell. *)
Definition fit_all (files : list string) : M (list slot) :=
  let fit_data := [[]; []; []; []] in
  fit_data ← foldM process_file fit_data files;
  foldM export_model (Rows <$> fit_data) (enumerate_items model_list).

(** The output-directory cell followed by the batch cell. *)
Definition notebook (files : list string) : M (list slot) :=
  _ ← setup_out_dir; fit_all files.

(** *** What one file contributes

    The calls of one loop iteration that do not depend on the state
    of the notebook, in the order the iteration makes them.  The run
    lemmas relate [process_file] to these. *)

Definition fit_one (data : Data) (cls : model_class) : exn + Model :=
  match build W cls data with
  | inl e => inl e
  | inr built => fit W built sample_options
  end.

Record scored_model : Type := mkScoredModel {
  sm_name : string;
  sm_model : Model;
  sm_row : DataFrame
}.

Definition score_model (initials commodity condition : string) (data : Data)
    (it : string * model_class) : exn + scored_model :=
  match fit_one data it.2 with
  | inl e => inl e
  | inr fitted =>
      match DataFrame_from_dict
              (make_info initials commodity condition it.1 fitted) with
      | inl e => inl e
      | inr row => inr (mkScoredModel it.1 fitted row)
      end
  end.

Fixpoint score_models (initials commodity condition : string) (data : Data)
    (its : list (string * model_class)) : exn + list scored_model :=
  match its with
  | [] => inr []
  | it :: its' =>
      match score_model initials commodity condition data it with
      | inl e => inl e
      | inr x =>
          match score_models initials commodity condition data its' with
          | inl e => inl e
          | inr xs => inr (x :: xs)
          end
      end
  end.

Record scored : Type := mkScored {
  sc_initials : string;
  sc_commodity : string;
  sc_condition : string;
  sc_data : Data;
  sc_models : list scored_model;
  sc_comparison : Comparison
}.

Definition score_file (fname : string) : exn + scored :=
  match parse_filename fname with
  | inl e => inl e
  | inr (initials, commodity, condition) =>
      match read_csv W fname with
      | inl e => inl e
      | inr data =>
          match score_models initials commodity condition data model_list with
          | inl e => inl e
          | inr sms =>
              match pm_compare W (sm_model <$> sms) with
              | inl e => inl e
              | inr comp => inr (mkScored initials commodity condition data sms comp)
              end
          end
      end
  end.

Definition sc_savename (sc : scored) : string :=
  savename_of (sc_initials sc) (sc_commodity sc) (sc_condition sc).

Definition sc_figure (sc : scored) : figure :=
  (PlotData (sc_data sc)
     :: ((fun sm => PlotModel (sm_name sm) (sm_model sm)) <$> sc_models sc)
     ++ [Legend;
         Title (sc_initials sc +:+ ", " +:+ sc_commodity sc +:+ ", " +:+ sc_condition sc);
         XLabel "delay [days]";
         YLabel "discount fraction"],
   [ComparePlot (sc_comparison sc)]).

Definition sc_rows (sc : scored) : list DataFrame := sm_row <$> sc_models sc.

Definition model_events (sms : list scored_model) : list event :=
  sms ≫= fun sm => [EvFit (sm_name sm); EvDisplayFrame (sm_row sm)].

Definition sc_events (fname : string) (sc : scored) : list event :=
  EvReadCsv fname
    :: model_events (sc_models sc)
    ++ [EvDisplayComparison (sc_comparison sc); EvSavefig (sc_savename sc)].

(** *** What a list of files contributes *)

Fixpoint score_files (files : list string) : exn + list scored :=
  match files with
  | [] => inr []
  | fname :: files' =>
      match score_file fname with
      | inl e => inl e
      | inr sc =>
          match score_files files' with
          | inl e => inl e
          | inr scs => inr (sc :: scs)
          end
      end
  end.

(** Writing files one after the other. *)
Definition apply_writes (ws : list (string * content))
    (fs : gmap string content) : gmap string content :=
  foldl (fun fs w => <[w.1 := w.2]> fs) fs ws.

Definition pdf_writes (scs : list scored) : list (string * content) :=
  (fun sc => (sc_savename sc, Pdf (sc_figure sc))) <$> scs.

(** The rows of model number [m], one per file. *)
Definition rows_of (m : nat) (scs : list scored) : list DataFrame :=
  omap (fun sc => sc_rows sc !! m) scs.

(** The table of model number [m]. *)
Definition table_of (m : nat) (scs : list scored) : DataFrame :=
  match pd_concat (union_columns W) (rows_of m scs) with
  | inr table => table
  | inl _ => mkDataFrame [] []
  end.

Definition csv_of (table : DataFrame) : content :=
  Csv (columns table) (records table).

Definition csv_writes (scs : list scored) : list (string * content) :=
  imap (fun m kv => (csv_name kv.1, csv_of (table_of m scs))) model_list.

Definition all_events (files : list string) (scs : list scored) : list event :=
  concat (zip_with sc_events files scs)
  ++ ((fun kv => EvToCsv (csv_name kv.1)) <$> model_list).

(** The objects at the locations [rs] are the frames [dfs]. *)
Definition frames_at (h : list DataFrame) (rs : list loc)
    (dfs : list DataFrame) : Prop :=
  Forall2 (fun r df => h !! r = Some df) rs dfs.

(** The table exported for a model, as the file system has it. *)
Definition csv_table (s : state) (model_name : string)
    : option (list string * list (list value)) :=
  match st_files s !! csv_name model_name with
  | Some (Csv header rows) => Some (header, rows)
  | _ => None
  end.

(** Each of the per-model tables has [n] rows. *)
Definition each_csv_has_rows (n : nat) (s : state) : Prop :=
  forall model_name, model_name ∈ dict_keys model_list ->
    exists header rows,
      csv_table s model_name = Some (header, rows) /\ length rows = n.

(** The fitted models of the file name their mean parameters as
    [names] says for their class. *)
Definition params_named (names : model_class -> list string)
    (fname : string) : bool :=
  match score_file fname with
  | inr sc =>
      forallb (fun p => bool_decide
                 (dict_keys (mean_parameters W (sm_model p.1)) = names p.2.2))
              (zip (sc_models sc) model_list)
  | inl _ => true
  end.


(** The file name does not unpack into five fields. *)
Definition malformed (fname : string) : bool :=
  negb (Nat.eqb (length (Str.split hyphen (os_path_split fname).2)) 5).

Definition is_csv_event (ev : event) : bool :=
  match ev with EvToCsv _ => true | _ => false end.

Definition same_fs (s1 s2 : state) : Prop :=
  st_dirs s1 = st_dirs s2 /\ st_files s1 = st_files s2.

(** *** Relations between the state before and after a computation *)

(** [m] relates every state it starts in to the state it ends in,
    whether it returns or raises. *)
Definition preserves {A} (R : state -> state -> Prop) (m : M A) : Prop :=
  forall s r s', m s = (r, s') -> R s s'.


(** No [.csv] has been written: [to_csv] was not called and the
    files named [parameter_estimation_*.csv] are as they were. *)
Definition no_csv (s s' : state) : Prop :=
  (exists evs, st_log s' = st_log s ++ evs
               /\ Forall (fun ev => is_csv_event ev = false) evs)
  /\ forall name, st_files s' !! csv_name name = st_files s !! csv_name name.

End Notebook.

Arguments World : clear implicits.
Arguments state : clear implicits.
Arguments M : clear implicits.
Arguments content : clear implicits.
Arguments figure : clear implicits.
Arguments event : clear implicits.
Arguments scored : clear implicits.
Arguments scored_model : clear implicits.

(** A dictionary whose lists all have one element. *)
Definition one_row (d : dict series) : Prop :=
  Forall (fun kv => series_len kv.2 = None \/ series_len kv.2 = Some 1) d.

(** The parameter names of every class are distinct and none of them is
    one of the eight columns of [info]. *)
Definition names_fresh (names : model_class -> list string) : bool :=
  forallb (fun kv => bool_decide (NoDup (info_keys ++ names kv.2))) model_list.

(** The path of a [to_csv] call. *)
Definition csv_path {Comparison} (ev : event Comparison) : option string :=
  match ev with
  | EvToCsv path => Some path
  | _ => None
  end.

(** A field of a file name: no hyphen and no path separator in it. *)
Definition field_ok (s : string) : bool :=
  Str.free_of hyphen s && Str.free_of sep s.

(** The file name made of five fields. *)
Definition join5 (a b c d e : string) : string :=
  a +:+ "-" +:+ b +:+ "-" +:+ c +:+ "-" +:+ d +:+ "-" +:+ e.

(** ** A small world to run the notebook in *)

Module Demo.

(** One list of numbers per choice trial. *)
Definition data : Type := list (list float).
Definition model : Type := model_class * data.
Definition comparison : Type := list string.

Definition trials : data :=
  [[0; 10; 7; 20; 1]; [0; 15; 30; 20; 0]; [0; 5; 1; 20; 1]]%float.

Definition folder : list string :=
  ["../data/discounting/AB-food-hungry-20170101-1200.txt";
   "../data/discounting/AB-money-sated-20170108-1130.txt";
   "../data/discounting/notes.txt"].

Definition param_names (cls : model_class) : list string :=
  match cls with
  | Exponential => ["k"]
  | Hyperbolic => ["logk"]
  | ModifiedRachlin => ["logk"; "s"]
  | Hyperboloid => ["logk"; "s"]
  end.

Definition world : World data model comparison := {|
  read_csv := fun fname =>
    if bool_decide (fname ∈ folder) then inr trials
    else inl (FileNotFoundError fname);
  build := fun cls d => inr (cls, d);
  fit := fun mo _ =>
    match mo.2 with
    | [] => inl (ExternalError "no trials")
    | _ => inr mo
    end;
  metrics_log_loss := fun _ => [0.25; 0.5; 0.75]%float;
  metrics_AUC := fun _ => 0.625%float;
  metrics_WAIC := fun _ => 42.5%float;
  metrics_roc_auc := fun _ => 0.875%float;
  mean_parameters := fun mo =>
    (fun name => (name, (-2.5)%float)) <$> param_names mo.1;
  np_median := fun l => default nan (l !! (length l `div` 2));
  pm_compare := fun mos => inr ["Hyperbolic"; "Hyperboloid"; "ModifiedRachlin"; "Exponential"];
  union_columns := fun cols => remove_dups (concat cols)
|}.

Definition files : list string :=
  ["../data/discounting/AB-food-hungry-20170101-1200.txt";
   "../data/discounting/AB-money-sated-20170108-1130.txt"].

(** A fresh kernel in an empty working directory. *)
Definition s0 : state data model comparison := mkState [] ∅ ∅ [].

(** The kernel after one run over [files]. *)
Definition s1 : state data model comparison :=
  (notebook world files s0).2.

(** The same, once the output-directory cell has run. *)
Definition s_ready : state data model comparison := mkState [] {["fits"]} ∅ [].


End Demo.

(** ** Further notions for the properties of the cells *)

(** [s.count(c)] for a one-character [c]. *)
Fixpoint count_char (c : ascii) (s : string) : nat :=
  match s with
  | EmptyString => 0
  | String a s' => (if Ascii.eqb a c then 1 else 0) + count_char c s'
  end.

(** [c.join(l)] for a one-character [c]. *)
Fixpoint join (c : ascii) (l : list string) : string :=
  match l with
  | [] => ""
  | [w] => w
  | w :: l' => w +:+ String c (join c l')
  end.


(** [os.path.split(fname)[1]], the [file] of [parse_filename]. *)
Definition basename (fname : string) : string := (os_path_split fname).2.

Definition underscore : ascii := "_"%char.

(** <<
    root_data_folder = f'../data/discounting/'
    search_string = root_data_folder + '*.txt'
>> *)
Definition root_data_folder : string := "../data/discounting/".
Definition search_string : string := root_data_folder +:+ "*.txt".

(** The path [plt.savefig] is given for a data file, if its name parses. *)
Definition savename_of_file (fname : string) : option string :=
  match parse_filename fname with
  | inr (initials, commodity, condition) =>
      Some (savename_of initials commodity condition)
  | inl _ => None
  end.


Definition read_path {Comparison} (ev : event Comparison) : option string :=
  match ev with
  | EvReadCsv fname => Some fname
  | _ => None
  end.

Definition fit_name {Comparison} (ev : event Comparison) : option string :=
  match ev with
  | EvFit model_name => Some model_name
  | _ => None
  end.

Definition savefig_path {Comparison} (ev : event Comparison) : option string :=
  match ev with
  | EvSavefig path => Some path
  | _ => None
  end.


Section Frames.

Context {Data Model Comparison : Type}.


(** Nothing on disk has changed and no figure was saved. *)
Definition disk_kept (s s' : state Data Model Comparison) : Prop :=
  st_files s' = st_files s /\ st_dirs s' = st_dirs s
  /\ exists evs, st_log s' = st_log s ++ evs
                 /\ omap savefig_path evs = [] /\ omap csv_path evs = [].

End Frames.

(** A second world: the same files, other fits. *)
Module DemoB.

Definition world : World Demo.data Demo.model Demo.comparison := {|
  read_csv := read_csv Demo.world;
  build := build Demo.world;
  fit := fit Demo.world;
  metrics_log_loss := fun _ => [0.125; 0.375; 0.625]%float;
  metrics_AUC := fun _ => 0.5%float;
  metrics_WAIC := fun _ => 40.25%float;
  metrics_roc_auc := fun _ => 0.75%float;
  mean_parameters := fun mo =>
    (fun name => (name, (-3.5)%float)) <$> Demo.param_names mo.1;
  np_median := np_median Demo.world;
  pm_compare := fun mos => inr ["Hyperboloid"; "Hyperbolic"; "ModifiedRachlin"; "Exponential"];
  union_columns := union_columns Demo.world
|}.

(** A world whose models call one of their parameters [AUC]. *)
Definition clash : World Demo.data Demo.model Demo.comparison := {|
  read_csv := read_csv Demo.world;
  build := build Demo.world;
  fit := fit Demo.world;
  metrics_log_loss := metrics_log_loss Demo.world;
  metrics_AUC := metrics_AUC Demo.world;
  metrics_WAIC := metrics_WAIC Demo.world;
  metrics_roc_auc := metrics_roc_auc Demo.world;
  mean_parameters := fun mo => [("AUC", 0.25%float); ("k", (-2.5)%float)];
  np_median := np_median Demo.world;
  pm_compare := pm_compare Demo.world;
  union_columns := union_columns Demo.world
|}.

(** Two sessions of one participant, commodity and condition. *)
Definition twice : list string :=
  ["../data/discounting/AB-food-hungry-20170101-1200.txt";
   "../data/discounting/AB-food-hungry-20170102-0900.txt"].

(** A world in which every file can be read; the second session has
    fewer trials than the first. *)
Definition lab : World Demo.data Demo.model Demo.comparison := {|
  read_csv := fun fname =>
    if String.eqb fname "../data/discounting/AB-food-hungry-20170101-1200.txt"
    then inr Demo.trials else inr (take 2 Demo.trials);
  build := build Demo.world;
  fit := fit Demo.world;
  metrics_log_loss := metrics_log_loss Demo.world;
  metrics_AUC := metrics_AUC Demo.world;
  metrics_WAIC := metrics_WAIC Demo.world;
  metrics_roc_auc := metrics_roc_auc Demo.world;
  mean_parameters := mean_parameters Demo.world;
  np_median := np_median Demo.world;
  pm_compare := pm_compare Demo.world;
  union_columns := union_columns Demo.world
|}.

End DemoB.

(** * Properties *)

(** ** Examples *)

Example parse_filename_spec_example :
  parse_filename "AB-food-hungry-20170101-1200.txt" = inr ("AB", "food", "hungry").
Proof. reflexivity. Qed.

Example parse_filename_in_folder :
  parse_filename "../data/discounting/AB-food-hungry-20170101-1200.txt"
  = inr ("AB", "food", "hungry").
Proof. reflexivity. Qed.

Example os_path_split_examples :
  os_path_split "../data/discounting/x.txt" = ("../data/discounting", "x.txt")
  /\ os_path_split "/x" = ("/", "x")
  /\ os_path_split "//x" = ("//", "x")
  /\ os_path_split "a//" = ("a", "")
  /\ os_path_split "x" = ("", "x").
Proof. repeat split. Qed.

Example parse_filename_too_few :
  parse_filename "AB-food-hungry.txt"
  = inl (ValueError "not enough values to unpack (expected 5, got 3)").
Proof. reflexivity. Qed.

Example dict_update_example :
  dict_update (dict_lit [("a", 1); ("b", 2)]) [("b", 3); ("c", 4)]
  = [("a", 1); ("b", 3); ("c", 4)].
Proof. reflexivity. Qed.


(** ** Strings and paths *)

Module StrFacts.
Import Str.

Lemma split_nonempty c s : split c s <> [].
Proof. destruct s as [|a s]; simpl; [done|]. destruct (Ascii.eqb a c); [done|]. by destruct (split c s). Qed.

(** A string without the separator is a single field. *)
Lemma split_free c s : free_of c s = true -> split c s = [s].
Proof.
  induction s as [|a s IH]; simpl; [done|].
  intros [Ha Hs]%andb_prop. apply negb_true_iff in Ha. rewrite Ha.
  by rewrite (IH Hs).
Qed.

(** The first separator ends the first field. *)
Lemma split_field c a s :
  free_of c a = true -> split c (a +:+ String c s) = a :: split c s.
Proof.
  induction a as [|x a IH]; simpl.
  - intros _. by rewrite Ascii.eqb_refl.
  - intros [Hx Ha]%andb_prop. apply negb_true_iff in Hx. rewrite Hx.
    by rewrite (IH Ha).
Qed.

Lemma rfind_cons c a s :
  rfind c (String a s) =
  if (0 <=? rfind c s)%Z then (rfind c s + 1)%Z
  else if Ascii.eqb a c then 0%Z else (-1)%Z.
Proof. reflexivity. Qed.

Lemma rfind_free c s : free_of c s = true -> rfind c s = (-1)%Z.
Proof.
  induction s as [|a s IH]; simpl; [done|].
  intros [Ha Hs]%andb_prop. apply negb_true_iff in Ha.
  by rewrite (IH Hs), Ha.
Qed.

(** The last separator is the one in front of a separator-free tail. *)
Lemma rfind_last c d s :
  free_of c s = true ->
  rfind c (d +:+ String c s) = Z.of_nat (String.length d).
Proof.
  intros Hs. induction d as [|a d IH].
  - simpl. by rewrite (rfind_free _ _ Hs), Ascii.eqb_refl.
  - change (String a d +:+ String c s) with (String a (d +:+ String c s)).
    rewrite rfind_cons, IH. cbn [String.length].
    destruct (Z.leb_spec 0 (Z.of_nat (String.length d))); lia.
Qed.

Lemma drop_app d s : drop (String.length d) (d +:+ s) = s.
Proof. induction d as [|a d IH]; simpl; [by destruct s|done]. Qed.

Lemma drop_0 s : drop 0 s = s.
Proof. by destruct s. Qed.

Lemma rfind_ge c s : (-1 <= rfind c s)%Z.
Proof.
  induction s as [|a s IH]; [done|]. rewrite rfind_cons.
  destruct (Z.leb_spec 0 (rfind c s)); [lia|]. destruct (Ascii.eqb a c); lia.
Qed.

Lemma rfind_neg_free c s : (rfind c s < 0)%Z -> free_of c s = true.
Proof.
  induction s as [|a s IH]; [done|]. rewrite rfind_cons. cbn [free_of].
  destruct (Z.leb_spec 0 (rfind c s)) as [H|H]; [lia|].
  destruct (Ascii.eqb a c); [lia|]. intros _. by rewrite IH.
Qed.

(** What follows the last separator contains no separator. *)
Lemma drop_rfind_free c s :
  free_of c (drop (Z.to_nat (rfind c s + 1)) s) = true.
Proof.
  induction s as [|a s IH]; [done|]. rewrite rfind_cons.
  pose proof (rfind_ge c s) as Hge.
  destruct (Z.leb_spec 0 (rfind c s)) as [H|H].
  - replace (Z.to_nat (rfind c s + 1 + 1)) with (S (Z.to_nat (rfind c s + 1))) by lia.
    exact IH.
  - destruct (Ascii.eqb a c) eqn:E.
    + change (Z.to_nat (0 + 1)) with 1. cbn [drop].
      rewrite ?drop_0. by apply rfind_neg_free.
    + change (Z.to_nat (-1 + 1)) with 0. cbn [drop free_of]. rewrite E.
      by rewrite rfind_neg_free.
Qed.

(** The fields of a string contain no character the string has not. *)
Lemma split_fields_free c x s :
  free_of x s = true -> Forall (fun w => free_of x w = true) (split c s).
Proof.
  induction s as [|a s IH]; cbn [split free_of].
  - intros _. by constructor.
  - intros [Ha Hs]%andb_prop. specialize (IH Hs).
    destruct (Ascii.eqb a c).
    + by constructor.
    + destruct (split c s) as [|w ws].
      * repeat constructor. cbn [free_of]. by rewrite Ha.
      * inversion IH; subst. constructor; [|done]. cbn [free_of]. by rewrite Ha.
Qed.

End StrFacts.

(** The file part of a path that has no folder is the path itself. *)
Lemma os_path_split_bare (file : string) :
  Str.free_of sep file = true -> (os_path_split file).2 = file.
Proof.
  intros H. unfold os_path_split. cbn [snd].
  rewrite (StrFacts.rfind_free _ _ H). apply StrFacts.drop_0.
Qed.

(** The file part of [folder/file]. *)
Lemma os_path_split_tail (folder file : string) :
  Str.free_of sep file = true ->
  (os_path_split (folder +:+ String sep file)).2 = file.
Proof.
  intros H. unfold os_path_split. cbn [snd].
  rewrite (StrFacts.rfind_last _ _ _ H).
  replace (Z.to_nat (Z.of_nat (String.length folder) + 1))
    with (String.length (folder +:+ String sep "")).
  - replace (folder +:+ String sep file)
      with ((folder +:+ String sep "") +:+ file).
    + apply StrFacts.drop_app.
    + clear. induction folder as [|a f IH]; [done|].
      change (String a ((f +:+ String sep "") +:+ file) = String a (f +:+ String sep file)).
      by f_equal.
  - clear. induction folder as [|a f IH]; [done|].
    change (S (String.length (f +:+ String sep "")) =
            Z.to_nat (Z.of_nat (S (String.length f)) + 1)).
    rewrite IH. lia.
Qed.

Lemma parse_filename_unfold (fname : string) :
  parse_filename fname =
  match unpack5 (Str.split hyphen (os_path_split fname).2) with
  | inl e => inl e
  | inr (initials, commodity, condition, _, _) => inr (initials, commodity, condition)
  end.
Proof. unfold parse_filename. by destruct (os_path_split fname). Qed.

Lemma join5_eq (a b c d e : string) :
  join5 a b c d e =
  a +:+ String hyphen (b +:+ String hyphen (c +:+ String hyphen (d +:+ String hyphen e))).
Proof. reflexivity. Qed.

Lemma free_of_app ch s t :
  Str.free_of ch (s +:+ t) = Str.free_of ch s && Str.free_of ch t.
Proof. induction s as [|a s IH]; simpl; [done|]. by rewrite IH, andb_assoc. Qed.

Lemma split_join5 (a b c d e : string) :
  forallb field_ok [a; b; c; d; e] = true ->
  Str.split hyphen (join5 a b c d e) = [a; b; c; d; e]
  /\ Str.free_of sep (join5 a b c d e) = true.
Proof.
  cbn [forallb]. unfold field_ok. rewrite !andb_true_iff.
  intros H. destruct_and!. split.
  - rewrite join5_eq, !StrFacts.split_field by done.
    by rewrite StrFacts.split_free.
  - unfold join5. rewrite !free_of_app. cbn.
    rewrite !andb_true_iff. done.
Qed.

(** C1.  [parse_filename] maps the file name of the specification to
    its three leading fields; and for every file name made of exactly
    five fields separated by hyphens, alone or behind any folder, it
    returns the first three fields and drops the date and the time. *)
Theorem parse_filename_five_fields :
  parse_filename "AB-food-hungry-20170101-1200.txt" = inr ("AB", "food", "hungry")
  /\ forall folder a b c d e : string,
       forallb field_ok [a; b; c; d; e] = true ->
       parse_filename (join5 a b c d e) = inr (a, b, c)
       /\ parse_filename (folder +:+ "/" +:+ join5 a b c d e) = inr (a, b, c).
Proof.
  split; [reflexivity|].
  intros folder a b c d e H. destruct (split_join5 _ _ _ _ _ H) as [Hs Hf].
  split; rewrite parse_filename_unfold.
  - by rewrite os_path_split_bare, Hs.
  - change (folder +:+ "/" +:+ join5 a b c d e)
      with (folder +:+ String sep (join5 a b c d e)).
    by rewrite os_path_split_tail, Hs.
Qed.

Lemma parse_filename_five_fields_witness :
  forallb field_ok ["CD"; "money"; "sated"; "20170303"; "0915.txt"] = true
  /\ parse_filename (join5 "CD" "money" "sated" "20170303" "0915.txt")
     = inr ("CD", "money", "sated")
  /\ parse_filename ("../data/discounting" +:+ "/" +:+
                     join5 "CD" "money" "sated" "20170303" "0915.txt")
     = inr ("CD", "money", "sated").
Proof.
  split; [reflexivity|].
  apply (proj2 parse_filename_five_fields
           "../data/discounting" "CD" "money" "sated" "20170303" "0915.txt").
  reflexivity.
Defined.

(** The fields returned by the parser contain no path separator. *)
Lemma parse_filename_fields (fname initials commodity condition : string) :
  parse_filename fname = inr (initials, commodity, condition) ->
  Str.free_of sep initials = true
  /\ Str.free_of sep commodity = true
  /\ Str.free_of sep condition = true.
Proof.
  rewrite parse_filename_unfold. unfold os_path_split. cbn [snd].
  pose proof (StrFacts.split_fields_free hyphen sep _
                (StrFacts.drop_rfind_free sep fname)) as HF.
  destruct (Str.split hyphen _) as [|a [|b [|c [|d [|e [|x l]]]]]]; try done.
  cbn. intros [= <- <- <-].
  repeat (apply Forall_cons_1 in HF as [? HF]). done.
Qed.

(** A file name that does not unpack into five fields is rejected. *)
Lemma parse_filename_malformed (fname : string) :
  malformed fname = true -> exists msg, parse_filename fname = inl (ValueError msg).
Proof.
  unfold malformed. rewrite parse_filename_unfold.
  destruct (Str.split hyphen _) as [|a [|b [|c [|d [|e [|x l]]]]]]; cbn;
    try done; eauto.
Qed.

Lemma parse_filename_wellformed (fname : string) :
  malformed fname = false -> exists ids, parse_filename fname = inr ids.
Proof.
  unfold malformed. rewrite parse_filename_unfold.
  destruct (Str.split hyphen _) as [|a [|b [|c [|d [|e [|x l]]]]]]; cbn;
    try done; eauto.
Qed.

(** The figures go to the folder [fits]. *)
Lemma savename_folder (initials commodity condition : string) :
  Str.free_of sep initials = true ->
  Str.free_of sep commodity = true ->
  Str.free_of sep condition = true ->
  (os_path_split (savename_of initials commodity condition)).1 = "fits".
Proof.
  intros Hi Hc Hd. unfold savename_of.
  set (file := initials +:+ "_" +:+ commodity +:+ "_" +:+ condition +:+ ".pdf").
  assert (Hf : Str.free_of sep file = true).
  { unfold file. rewrite !free_of_app, Hi, Hc, Hd. reflexivity. }
  change ("fits/" +:+ file) with ("fits" +:+ String sep file).
  unfold os_path_split. rewrite (StrFacts.rfind_last _ _ _ Hf). reflexivity.
Qed.

Lemma savename_not_csv (initials commodity condition name : string) :
  savename_of initials commodity condition <> csv_name name.
Proof. discriminate. Qed.

(** ** Dictionaries and data frames *)

Lemma dict_set_fresh {V} (k : string) (v : V) (d : dict V) :
  k ∉ dict_keys d -> dict_set k v d = d ++ [(k, v)].
Proof.
  unfold dict_keys. induction d as [|[k' v'] d IH]; cbn; [done|].
  intros H. apply not_elem_of_cons in H as [Hne H].
  destruct (String.eqb_spec k k'); [done|]. by rewrite IH.
Qed.

(** Updating with new, distinct keys appends the items. *)
Lemma dict_update_fresh {V} (d other : dict V) :
  NoDup (dict_keys d ++ dict_keys other) -> dict_update d other = d ++ other.
Proof.
  unfold dict_update, dict_keys. revert d.
  induction other as [|[k v] other IH]; intros d H; cbn.
  - by rewrite app_nil_r.
  - rewrite dict_set_fresh.
    + rewrite IH; [by rewrite <- app_assoc|].
      rewrite fmap_app, <- app_assoc. exact H.
    + apply NoDup_app in H as (_ & H & _). intros Hk.
      apply (H _ Hk). apply list_elem_of_here.
Qed.

Lemma one_row_set_scalar k v d : one_row d -> one_row (dict_set k (Scalar v) d).
Proof.
  unfold one_row. induction 1 as [|[k' v'] d Hk Hd IH]; cbn.
  - repeat constructor.
  - destruct (String.eqb k k'); constructor; try done; by left.
Qed.

Lemma one_row_update_scalars d (params : dict float) :
  one_row d ->
  one_row (dict_update d (prod_map id (fun x => Scalar (VNum x)) <$> params)).
Proof.
  unfold dict_update. revert d. induction params as [|[k x] params IH]; intros d H; cbn; [done|].
  apply IH. by apply one_row_set_scalar.
Qed.

Lemma one_row_lens d : one_row d -> Forall (eq 1) (omap (fun kv => series_len kv.2) d).
Proof.
  induction 1 as [|kv d [H|H] _ IH]; cbn; [constructor|..]; rewrite H; [done|].
  by constructor.
Qed.

(** A frame built from such a dictionary has exactly one record. *)
Lemma from_dict_one_row d row :
  one_row d -> DataFrame_from_dict d = inr row -> length (records row) = 1.
Proof.
  intros H%one_row_lens. unfold DataFrame_from_dict.
  destruct (omap _ d) as [|n ns]; [done|].
  destruct (forallb _ ns); [|done]. intros [= <-]. cbn [records].
  rewrite length_fmap, length_seq. by inversion H.
Qed.

Lemma reindex_length cols df : length (reindex cols df) = length (records df).
Proof. unfold reindex. by rewrite length_fmap. Qed.

Lemma concat_singletons {A} (ls : list (list A)) :
  Forall (fun l => length l = 1) ls -> length (concat ls) = length ls.
Proof. induction 1 as [|l ls H _ IH]; cbn; [done|]. rewrite length_app, H, IH. done. Qed.

(** Concatenating one-record frames gives one record per frame. *)
Lemma pd_concat_length union frames table :
  Forall (fun df => length (records df) = 1) frames ->
  pd_concat union frames = inr table ->
  length (records table) = length frames.
Proof.
  intros H. unfold pd_concat. destruct frames as [|df rest]; [done|].
  destruct (forallb _ rest); intros E%(inj inr); subst table; cbn [records].
  - rewrite concat_singletons; [by rewrite length_fmap|].
    apply Forall_fmap. exact H.
  - rewrite concat_singletons; [by rewrite length_fmap|].
    apply Forall_fmap. eapply Forall_impl; [exact H|].
    intros x Hx. cbn. by rewrite reindex_length.
Qed.

(** Frames with the same columns are stacked. *)
Lemma pd_concat_aligned union (cols : list string) frames :
  frames <> [] ->
  Forall (fun df => columns df = cols) frames ->
  pd_concat union frames
  = inr {| columns := cols; records := concat (records <$> frames) |}.
Proof.
  intros Hne H. unfold pd_concat. destruct frames as [|df rest]; [done|].
  inversion H as [|? ? Hdf Hrest]; subst.
  replace (forallb _ rest) with true; [done|]. symmetry.
  apply forallb_forall. intros d Hd. unfold same_columns.
  apply bool_decide_eq_true_2.
  rewrite Forall_forall in Hrest. apply Hrest. by apply list_elem_of_In.
Qed.

Lemma omap_scalars (params : dict float) :
  omap (fun kv : string * series => series_len kv.2)
       (prod_map id (fun x => Scalar (VNum x)) <$> params) = [].
Proof. induction params as [|[k x] params IH]; [done|]. cbn. exact IH. Qed.

Lemma cells_scalars (params : dict float) i :
  (fun kv : string * series => series_cell i kv.2)
    <$> (prod_map id (fun x => Scalar (VNum x)) <$> params)
  = VNum <$> params.*2.
Proof. induction params as [|[k x] params IH]; [done|]. cbn. by rewrite <- IH. Qed.

Lemma keys_scalars (params : dict float) :
  (prod_map id (fun x => Scalar (VNum x)) <$> params).*1 = params.*1.
Proof. induction params as [|[k x] params IH]; [done|]. cbn. by rewrite <- IH. Qed.

(** ** The state monad of the notebook *)

Section Run.

Context {Data Model Comparison : Type}.
Variable W : World Data Model Comparison.


Implicit Types (s : state Data Model Comparison) (fd : list (list loc)).
Implicit Types (sc : scored Data Model Comparison) (scs : list (scored Data Model Comparison)).

Lemma bind_eq {A B} (m : M Data Model Comparison A) (f : A -> M Data Model Comparison B) s :
  (m ≫= f) s =
  match m s with
  | (inr a, s') => f a s'
  | (inl e, s') => (inl e, s')
  end.
Proof. reflexivity. Qed.

Lemma bind_inr {A B} (m : M Data Model Comparison A) (f : A -> M Data Model Comparison B) s a s' :
  m s = (inr a, s') -> (m ≫= f) s = f a s'.
Proof. intros H. by rewrite bind_eq, H. Qed.

Lemma bind_inl {A B} (m : M Data Model Comparison A) (f : A -> M Data Model Comparison B) s e s' :
  m s = (inl e, s') -> (m ≫= f) s = (inl e, s').
Proof. intros H. by rewrite bind_eq, H. Qed.

Lemma foldM_app {A B} (f : B -> A -> M Data Model Comparison B) (b : B) (l1 l2 : list A) s :
  foldM f b (l1 ++ l2) s = (foldM f b l1 ≫= fun b' => foldM f b' l2) s.
Proof.
  revert b s. induction l1 as [|a l1 IH]; intros b s; [done|].
  cbn [app foldM]. rewrite !bind_eq.
  destruct (f b a s) as [[e|b'] s1]; [done|]. by rewrite IH, bind_eq.
Qed.

(** *** Composition of state relations *)

Section Preserves.
Variable R : state Data Model Comparison -> state Data Model Comparison -> Prop.
Hypothesis R_refl : forall s, R s s.
Hypothesis R_trans : forall s1 s2 s3, R s1 s2 -> R s2 s3 -> R s1 s3.

Lemma preserves_ret {A} (a : A) : preserves R (mret a).
Proof. intros s r s' [= _ <-]. apply R_refl. Qed.

Lemma preserves_raise {A} (e : exn) : preserves R (raise (A:=A) e).
Proof. intros s r s' [= _ <-]. apply R_refl. Qed.

Lemma preserves_lift {A} (x : exn + A) : preserves R (lift x).
Proof. intros s r s' [= _ <-]. apply R_refl. Qed.

Lemma preserves_bind {A B} (m : M Data Model Comparison A) (f : A -> M Data Model Comparison B) :
  preserves R m -> (forall a, preserves R (f a)) -> preserves R (m ≫= f).
Proof.
  intros Hm Hf s r s'. rewrite bind_eq.
  destruct (m s) as [[e|a] s1] eqn:E.
  - intros [= <- <-]. by eapply Hm.
  - intros H. eapply R_trans; [by eapply Hm|by eapply Hf].
Qed.

Lemma preserves_foldM {A B} (f : B -> A -> M Data Model Comparison B) (l : list A) :
  (forall b a, preserves R (f b a)) -> forall b, preserves R (foldM f b l).
Proof.
  intros Hf. induction l as [|a l IH]; intros b; cbn [foldM].
  - apply preserves_ret.
  - apply preserves_bind; [apply Hf|apply IH].
Qed.

Lemma preserves_getitem {A} (l : list A) i : preserves R (getitem l i).
Proof. unfold getitem. destruct (l !! i); [apply preserves_ret|apply preserves_raise]. Qed.

Lemma preserves_setitem {A} (l : list A) i x : preserves R (setitem l i x).
Proof. unfold setitem. destruct (Nat.ltb _ _); [apply preserves_ret|apply preserves_raise]. Qed.

Lemma preserves_deref r : preserves R (deref r).
Proof.
  intros s x s'. unfold deref. destruct (st_heap s !! r); intros [= _ <-]; apply R_refl.
Qed.

End Preserves.

(** *** One model of one file *)

Lemma model_list_eq :
  model_list = [("Exponential", Exponential); ("Hyperbolic", Hyperbolic);
                ("ModifiedRachlin", ModifiedRachlin); ("Hyperboloid", Hyperboloid)].
Proof. reflexivity. Qed.

Lemma model_items_eq :
  enumerate_items model_list =
  [(0, ("Exponential", Exponential)); (1, ("Hyperbolic", Hyperbolic));
   (2, ("ModifiedRachlin", ModifiedRachlin)); (3, ("Hyperboloid", Hyperboloid))].
Proof. reflexivity. Qed.

Lemma alloc_deref {B} (df : DataFrame) (k : loc -> DataFrame -> M Data Model Comparison B) s :
  (alloc df ≫= fun r => deref r ≫= k r) s =
  k (length (st_heap s)) df
    (mkState (st_heap s ++ [df]) (st_dirs s) (st_files s) (st_log s)).
Proof.
  rewrite bind_eq. cbn [alloc]. rewrite bind_eq. unfold deref. cbn [st_heap].
  by rewrite list_lookup_middle.
Qed.

Lemma fit_model_ok initials commodity condition data fd models ax0 m name cls sm rs s :
  score_model W initials commodity condition data (name, cls) = inr sm ->
  m < length models ->
  fd !! m = Some rs ->
  fit_model W initials commodity condition data (fd, models, ax0) (m, (name, cls)) s
  = (inr (<[m := rs ++ [length (st_heap s)]]> fd,
          <[m := Some (sm_model sm)]> models,
          ax0 ++ [PlotModel name (sm_model sm)]),
     mkState (st_heap s ++ [sm_row sm]) (st_dirs s) (st_files s)
             (st_log s ++ [EvFit name; EvDisplayFrame (sm_row sm)])).
Proof.
  unfold score_model, fit_one. cbn [fst snd].
  destruct (build W cls data) as [?|built] eqn:Eb; [done|].
  destruct (fit W built sample_options) as [?|fitted] eqn:Ef; [done|].
  destruct (DataFrame_from_dict _) as [?|row] eqn:Er; [done|].
  intros [= <-] Hm Hfd. cbn [sm_model sm_row].
  unfold fit_model. rewrite Eb.
  rewrite bind_eq. cbn [lift]. rewrite bind_eq. unfold setitem.
  apply Nat.ltb_lt in Hm as Hm'. rewrite Hm'. cbn [mret M_ret].
  rewrite bind_eq. cbn [emit]. rewrite bind_eq, Ef. cbn [lift].
  rewrite bind_eq, Er. cbn [lift].
  rewrite alloc_deref. cbn [st_heap st_dirs st_files st_log].
  rewrite bind_eq. cbn [emit st_heap st_dirs st_files st_log].
  rewrite bind_eq. unfold getitem. rewrite Hfd. cbn [mret M_ret].
  by rewrite list_insert_insert_eq, <- app_assoc.
Qed.

Lemma fit_model_fail initials commodity condition data fd models ax0 m name cls e s :
  score_model W initials commodity condition data (name, cls) = inl e ->
  m < length models ->
  exists s',
    fit_model W initials commodity condition data (fd, models, ax0) (m, (name, cls)) s
    = (inl e, s').
Proof.
  unfold score_model, fit_one, fit_model. cbn [fst snd].
  intros H Hm. apply Nat.ltb_lt in Hm.
  rewrite bind_eq. cbn [lift].
  destruct (build W cls data) as [?|built]; [injection H as <-; eauto|].
  rewrite bind_eq. unfold setitem. rewrite Hm. cbn [mret M_ret].
  rewrite bind_eq. cbn [emit]. rewrite bind_eq. cbn [lift].
  destruct (fit W built sample_options) as [?|fitted]; [injection H as <-; eauto|].
  rewrite bind_eq. cbn [lift].
  destruct (DataFrame_from_dict _) as [?|row]; [injection H as <-; eauto|done].
Qed.

(** *** The four models of one file *)

Lemma fit_models_ok initials commodity condition data a b c d ax0 sms s :
  score_models W initials commodity condition data model_list = inr sms ->
  foldM (fit_model W initials commodity condition data)
        ([a; b; c; d], [None; None; None; None], ax0)
        (enumerate_items model_list) s
  = (inr ([a ++ [length (st_heap s)]; b ++ [length (st_heap s) + 1];
           c ++ [length (st_heap s) + 2]; d ++ [length (st_heap s) + 3]],
          Some ∘ sm_model <$> sms,
          ax0 ++ ((fun sm => PlotModel (sm_name sm) (sm_model sm)) <$> sms)),
     mkState (st_heap s ++ (sm_row <$> sms)) (st_dirs s) (st_files s)
             (st_log s ++ model_events sms))
  /\ length sms = 4.
Proof.
  rewrite model_items_eq, model_list_eq. cbn [score_models].
  destruct (score_model _ _ _ _ _ ("Exponential", _)) as [?|sm0] eqn:E0; [done|].
  destruct (score_model _ _ _ _ _ ("Hyperbolic", _)) as [?|sm1] eqn:E1; [done|].
  destruct (score_model _ _ _ _ _ ("ModifiedRachlin", _)) as [?|sm2] eqn:E2; [done|].
  destruct (score_model _ _ _ _ _ ("Hyperboloid", _)) as [?|sm3] eqn:E3; [done|].
  intros [= <-]. split; [|done].
  assert (Hn : forall (name : string) cls sm,
             score_model W initials commodity condition data (name, cls) = inr sm ->
             sm_name sm = name).
  { clear. intros name cls sm. unfold score_model.
    destruct (fit_one _ _ _); [done|]. destruct (DataFrame_from_dict _); [done|].
    by intros [= <-]. }
  cbn [foldM].
  erewrite bind_inr by (eapply fit_model_ok; [exact E0|cbn; lia|reflexivity]).
  cbn [insert list_insert st_heap st_dirs st_files st_log].
  erewrite bind_inr by (eapply fit_model_ok; [exact E1|cbn; lia|reflexivity]).
  cbn [insert list_insert st_heap st_dirs st_files st_log].
  erewrite bind_inr by (eapply fit_model_ok; [exact E2|cbn; lia|reflexivity]).
  cbn [insert list_insert st_heap st_dirs st_files st_log].
  erewrite bind_inr by (eapply fit_model_ok; [exact E3|cbn; lia|reflexivity]).
  cbn [insert list_insert st_heap st_dirs st_files st_log mret M_ret].
  rewrite !length_app. cbn [length]. unfold model_events.
  cbn [fmap list_fmap mbind list_bind app compose insert list_insert mret M_ret].
  rewrite (Hn _ _ _ E0), (Hn _ _ _ E1), (Hn _ _ _ E2), (Hn _ _ _ E3).
  rewrite <- !app_assoc, <- !Nat.add_assoc. reflexivity.
Qed.

Lemma bind_raises {A B} (m : M Data Model Comparison A) (f : A -> M Data Model Comparison B) s e :
  (exists s', m s = (inl e, s')) -> exists s', (m ≫= f) s = (inl e, s').
Proof. intros [s' H]. exists s'. by rewrite bind_eq, H. Qed.

Lemma fit_models_fail initials commodity condition data a b c d ax0 e s :
  score_models W initials commodity condition data model_list = inl e ->
  exists s',
    foldM (fit_model W initials commodity condition data)
          ([a; b; c; d], [None; None; None; None], ax0)
          (enumerate_items model_list) s
    = (inl e, s').
Proof.
  rewrite model_items_eq, model_list_eq. cbn [score_models foldM].
  destruct (score_model _ _ _ _ _ ("Exponential", _)) as [?|sm0] eqn:E0.
  { intros [= <-]. apply bind_raises.
    eapply fit_model_fail; [exact E0|cbn; lia]. }
  erewrite bind_inr by (eapply fit_model_ok; [exact E0|cbn; lia|reflexivity]).
  cbn [insert list_insert].
  destruct (score_model _ _ _ _ _ ("Hyperbolic", _)) as [?|sm1] eqn:E1.
  { intros [= <-]. apply bind_raises.
    eapply fit_model_fail; [exact E1|cbn; lia]. }
  erewrite bind_inr by (eapply fit_model_ok; [exact E1|cbn; lia|reflexivity]).
  cbn [insert list_insert].
  destruct (score_model _ _ _ _ _ ("ModifiedRachlin", _)) as [?|sm2] eqn:E2.
  { intros [= <-]. apply bind_raises.
    eapply fit_model_fail; [exact E2|cbn; lia]. }
  erewrite bind_inr by (eapply fit_model_ok; [exact E2|cbn; lia|reflexivity]).
  cbn [insert list_insert].
  destruct (score_model _ _ _ _ _ ("Hyperboloid", _)) as [?|sm3] eqn:E3.
  { intros [= <-]. apply bind_raises.
    eapply fit_model_fail; [exact E3|cbn; lia]. }
  done.
Qed.

(** *** One file *)

Lemma open_w_ok initials commodity condition (c : content Data Model Comparison) s :
  Str.free_of sep initials = true ->
  Str.free_of sep commodity = true ->
  Str.free_of sep condition = true ->
  open_w (savename_of initials commodity condition) c s =
  if bool_decide ("fits" ∈ st_dirs s)
  then write_file (savename_of initials commodity condition) c s
  else (inl (FileNotFoundError (savename_of initials commodity condition)), s).
Proof.
  intros Hi Hc Hd. unfold open_w.
  rewrite (savename_folder _ _ _ Hi Hc Hd).
  by rewrite (bool_decide_eq_false_2 ("fits" = "")).
Qed.

Lemma process_file_run fname a b c d s :
  match score_file W fname with
  | inl e => exists s', process_file W [a; b; c; d] fname s = (inl e, s')
  | inr sc =>
      if bool_decide ("fits" ∈ st_dirs s) then
        process_file W [a; b; c; d] fname s
        = (inr [a ++ [length (st_heap s)]; b ++ [length (st_heap s) + 1];
                c ++ [length (st_heap s) + 2]; d ++ [length (st_heap s) + 3]],
           mkState (st_heap s ++ sc_rows sc) (st_dirs s)
                   (<[sc_savename sc := Pdf (sc_figure sc)]> (st_files s))
                   (st_log s ++ sc_events fname sc))
      else
        exists s', process_file W [a; b; c; d] fname s
                   = (inl (FileNotFoundError (sc_savename sc)), s')
  end
  /\ (forall sc, score_file W fname = inr sc -> length (sc_models sc) = 4).
Proof.
  unfold score_file, process_file. rewrite bind_eq. cbn [lift].
  destruct (parse_filename fname) as [e|[[initials commodity] condition]] eqn:Ep.
  { split; [eauto|done]. }
  destruct (parse_filename_fields _ _ _ _ Ep) as (Hi & Hc & Hd).
  rewrite bind_eq. cbn [emit]. rewrite bind_eq. cbn [lift].
  destruct (read_csv W fname) as [e|data] eqn:Er.
  { split; [eauto|done]. }
  rewrite bind_eq.
  destruct (score_models W initials commodity condition data model_list)
    as [e|sms] eqn:Em.
  { split; [|done].
    destruct (fit_models_fail _ _ _ _ a b c d [PlotData data] e
                (mkState (st_heap s) (st_dirs s) (st_files s) (st_log s ++ [EvReadCsv fname]))
                Em) as [s' ->].
    eauto. }
  destruct (fit_models_ok _ _ _ _ a b c d [PlotData data] sms
              (mkState (st_heap s) (st_dirs s) (st_files s) (st_log s ++ [EvReadCsv fname]))
              Em) as [-> Hlen].
  destruct sms as [|sm0 [|sm1 [|sm2 [|sm3 [|? ?]]]]]; try done. clear Hlen.
  cbn [fmap list_fmap compose st_heap st_dirs st_files st_log].
  unfold model_at. rewrite !bind_eq. cbn [getitem lookup list_lookup mret M_ret lift].
  unfold mret, M_ret. rewrite !bind_eq.
  destruct (pm_compare W _) as [e|comp] eqn:Ec.
  { split; [eauto|done]. }
  split; [|by intros sc [= <-]].
  cbn [lift]. rewrite bind_eq. cbn [emit]. rewrite bind_eq.
  unfold plt_savefig. rewrite bind_eq. cbn [emit].
  rewrite (open_w_ok _ _ _ _ _ Hi Hc Hd).
  cbn [st_dirs]. destruct (bool_decide ("fits" ∈ st_dirs s)); [|eauto].
  unfold write_file, sc_rows, sc_events, sc_figure, sc_savename.
  cbn [st_heap st_dirs st_files st_log sc_models sc_initials sc_commodity
       sc_condition sc_comparison sc_data fmap list_fmap].
  rewrite <- !app_assoc. reflexivity.
Qed.

(** *** The loop over the files *)

Lemma frames_at_mono h h' rs dfs :
  frames_at h rs dfs -> frames_at (h ++ h') rs dfs.
Proof.
  unfold frames_at. induction 1; constructor; [|done].
  by apply lookup_app_l_Some.
Qed.

Lemma score_files_length files scs :
  score_files W files = inr scs -> length scs = length files.
Proof.
  revert scs. induction files as [|f files IH]; intros scs; cbn [score_files].
  - by intros [= <-].
  - destruct (score_file W f); [done|]. destruct (score_files W files); [done|].
    intros [= <-]. cbn. by rewrite (IH _ eq_refl).
Qed.

Lemma files_loop_ok files : forall scs a b c d xa xb xc xd s,
  score_files W files = inr scs ->
  "fits" ∈ st_dirs s ->
  frames_at (st_heap s) a xa -> frames_at (st_heap s) b xb ->
  frames_at (st_heap s) c xc -> frames_at (st_heap s) d xd ->
  exists a' b' c' d',
    foldM (process_file W) [a; b; c; d] files s
    = (inr [a'; b'; c'; d'],
       mkState (st_heap s ++ concat (sc_rows <$> scs)) (st_dirs s)
               (apply_writes (pdf_writes scs) (st_files s))
               (st_log s ++ concat (zip_with sc_events files scs)))
    /\ frames_at (st_heap s ++ concat (sc_rows <$> scs)) a' (xa ++ rows_of 0 scs)
    /\ frames_at (st_heap s ++ concat (sc_rows <$> scs)) b' (xb ++ rows_of 1 scs)
    /\ frames_at (st_heap s ++ concat (sc_rows <$> scs)) c' (xc ++ rows_of 2 scs)
    /\ frames_at (st_heap s ++ concat (sc_rows <$> scs)) d' (xd ++ rows_of 3 scs).
Proof.
  induction files as [|f files IH]; intros scs a b c d xa xb xc xd s;
    cbn [score_files foldM].
  - intros [= <-] Hdir Ha Hb Hc Hd. exists a, b, c, d.
    cbn [fmap list_fmap concat zip_with rows_of omap list_omap pdf_writes apply_writes foldl].
    rewrite !app_nil_r. destruct s. done.
  - destruct (process_file_run f a b c d s) as [Hrun Hlen].
    destruct (score_file W f) as [e|sc] eqn:Ef; [done|].
    destruct (score_files W files) as [e|scs'] eqn:Efs; [done|].
    intros [= <-] Hdir Ha Hb Hc Hd.
    rewrite (bool_decide_eq_true_2 _ Hdir) in Hrun.
    rewrite (bind_inr _ _ _ _ _ Hrun). clear Hrun.
    specialize (Hlen _ eq_refl).
    assert (Hrows : exists r0 r1 r2 r3, sc_rows sc = [r0; r1; r2; r3]).
    { unfold sc_rows. destruct (sc_models sc) as [|x0 [|x1 [|x2 [|x3 [|? ?]]]]]; try done.
      by eexists _, _, _, _. }
    destruct Hrows as (r0 & r1 & r2 & r3 & Hrows).
    set (s1 := mkState (st_heap s ++ sc_rows sc) _ _ _).
    edestruct (IH scs' (a ++ [length (st_heap s)]) (b ++ [length (st_heap s) + 1])
                 (c ++ [length (st_heap s) + 2]) (d ++ [length (st_heap s) + 3])
                 (xa ++ [r0]) (xb ++ [r1]) (xc ++ [r2]) (xd ++ [r3]) s1 eq_refl)
      as (a' & b' & c' & d' & -> & Ha' & Hb' & Hc' & Hd').
    + done.
    + apply Forall2_app; [by apply frames_at_mono|]. repeat constructor.
      cbn [s1 st_heap]. rewrite Hrows.
      by rewrite (lookup_app_r _ _ _ (Nat.le_refl _)), Nat.sub_diag.
    + apply Forall2_app; [by apply frames_at_mono|]. repeat constructor.
      cbn [s1 st_heap]. rewrite Hrows.
      rewrite lookup_app_r by lia.
      by replace (length (st_heap s) + 1 - length (st_heap s)) with 1 by lia.
    + apply Forall2_app; [by apply frames_at_mono|]. repeat constructor.
      cbn [s1 st_heap]. rewrite Hrows.
      rewrite lookup_app_r by lia.
      by replace (length (st_heap s) + 2 - length (st_heap s)) with 2 by lia.
    + apply Forall2_app; [by apply frames_at_mono|]. repeat constructor.
      cbn [s1 st_heap]. rewrite Hrows.
      rewrite lookup_app_r by lia.
      by replace (length (st_heap s) + 3 - length (st_heap s)) with 3 by lia.
    + exists a', b', c', d'.
      cbn [s1 st_heap st_dirs st_files st_log fmap list_fmap concat zip_with
           pdf_writes apply_writes foldl fst snd] in *.
      rewrite <- !app_assoc in *.
      split; [done|].
      unfold rows_of in *. cbn [omap list_omap]. rewrite Hrows.
      cbn [lookup list_lookup]. rewrite Hrows in *.
      cbn [app] in *. done.
Qed.

Lemma files_loop_fail files : forall e a b c d s,
  score_files W files = inl e ->
  exists e' s', foldM (process_file W) [a; b; c; d] files s = (inl e', s')
                /\ ("fits" ∈ st_dirs s -> e' = e).
Proof.
  induction files as [|f files IH]; intros e a b c d s; cbn [score_files foldM]; [done|].
  destruct (process_file_run f a b c d s) as [Hrun _].
  destruct (score_file W f) as [e1|sc] eqn:Ef.
  { intros [= <-]. destruct Hrun as [s' Hs']. exists e1, s'.
    by rewrite (bind_inl _ _ _ _ _ Hs'). }
  destruct (score_files W files) as [e2|scs] eqn:Efs; [|done].
  intros [= <-]. destruct (decide ("fits" ∈ st_dirs s)) as [Hd|Hd].
  - rewrite (bool_decide_eq_true_2 _ Hd) in Hrun.
    rewrite (bind_inr _ _ _ _ _ Hrun).
    edestruct (IH e2) as (e' & s' & -> & He); [done|].
    exists e', s'. split; [done|]. intros _. by apply He.
  - rewrite (bool_decide_eq_false_2 _ Hd) in Hrun.
    destruct Hrun as [s' Hs']. eexists _, s'.
    rewrite (bind_inl _ _ _ _ _ Hs'). split; [done|]. done.
Qed.

Lemma files_loop_nodir files a b c d s :
  files <> [] -> "fits" ∉ st_dirs s ->
  exists e s', foldM (process_file W) [a; b; c; d] files s = (inl e, s').
Proof.
  destruct files as [|f files]; [done|]. intros _ Hd. cbn [foldM].
  destruct (process_file_run f a b c d s) as [Hrun _].
  rewrite (bool_decide_eq_false_2 _ Hd) in Hrun.
  destruct (score_file W f); destruct Hrun as [s' Hs'];
    eexists _, s'; by rewrite (bind_inl _ _ _ _ _ Hs').
Qed.

Lemma score_files_models files scs :
  score_files W files = inr scs ->
  Forall (fun sc => length (sc_models sc) = 4) scs.
Proof.
  revert scs. induction files as [|f files IH]; intros scs; cbn [score_files].
  - intros [= <-]. constructor.
  - destruct (process_file_run f [] [] [] [] (mkState [] ∅ ∅ [])) as [_ Hlen].
    destruct (score_file W f) as [|sc]; [done|].
    destruct (score_files W files); [done|].
    intros [= <-]. constructor; [by apply Hlen|by apply IH].
Qed.

Lemma rows_of_length m scs :
  Forall (fun sc => length (sc_models sc) = 4) scs -> m < 4 ->
  length (rows_of m scs) = length scs.
Proof.
  intros H Hm. unfold rows_of. induction H as [|sc scs Hsc _ IH]; [done|].
  cbn [omap list_omap]. destruct (sc_rows sc !! m) eqn:E.
  - cbn. by rewrite <- IH.
  - apply lookup_ge_None in E. unfold sc_rows in E. rewrite length_fmap in E. lia.
Qed.

(** *** The export of one model *)

Lemma deref_all rs : forall acc dfs s,
  frames_at (st_heap s) rs dfs ->
  foldM (fun acc r => deref r ≫= fun df => mret (acc ++ [df])) acc rs s
  = (inr (acc ++ dfs), s).
Proof.
  induction rs as [|r rs IH]; intros acc dfs s H; inversion H as [|? df ? dfs' Hr Hrs]; subst.
  - cbn [foldM]. by rewrite app_nil_r.
  - cbn [foldM]. rewrite !bind_eq. unfold deref at 1. rewrite Hr.
    unfold mret at 1, M_ret at 1.
    rewrite (IH _ _ _ Hrs), <- app_assoc. done.
Qed.

Lemma pd_concat_nonempty (dfs : list DataFrame) :
  dfs <> [] -> exists table, pd_concat (union_columns W) dfs = inr table.
Proof.
  destruct dfs as [|df dfs]; [done|]. intros _. unfold pd_concat.
  destruct (forallb _ dfs); eauto.
Qed.

Lemma table_of_concat m scs :
  Forall (fun sc => length (sc_models sc) = 4) scs -> m < 4 -> scs <> [] ->
  pd_concat (union_columns W) (rows_of m scs) = inr (table_of W m scs).
Proof.
  intros H Hm Hne. unfold table_of.
  destruct (pd_concat_nonempty (rows_of m scs)) as [t ->]; [|done].
  intros E. apply (f_equal length) in E. rewrite rows_of_length in E by done.
  by destruct scs.
Qed.

Lemma export_model_ok (fdl : list slot) m name cls rs dfs table s :
  fdl !! m = Some (Rows rs) ->
  frames_at (st_heap s) rs dfs ->
  pd_concat (union_columns W) dfs = inr table ->
  (os_path_split (csv_name name)).1 = "" ->
  export_model W fdl (m, (name, cls)) s
  = (inr (<[m := Frame (length (st_heap s))]> fdl),
     mkState (st_heap s ++ [table]) (st_dirs s)
             (<[csv_name name := csv_of table]> (st_files s))
             (st_log s ++ [EvToCsv (csv_name name)])).
Proof.
  intros Hm Hrs Hc Hp. unfold export_model.
  rewrite bind_eq. unfold getitem. rewrite Hm. unfold mret at 1, M_ret at 1.
  rewrite bind_eq, (deref_all _ [] _ _ Hrs). cbn [app].
  rewrite bind_eq, Hc. cbn [lift].
  rewrite bind_eq. cbn [alloc].
  rewrite bind_eq. unfold setitem.
  rewrite (proj2 (Nat.ltb_lt _ _) (lookup_lt_Some _ _ _ Hm)).
  unfold mret at 1, M_ret at 1.
  rewrite bind_eq. unfold deref. cbn [st_heap].
  rewrite list_lookup_middle by done.
  rewrite bind_eq. unfold to_csv. rewrite bind_eq. cbn [emit].
  unfold open_w. rewrite Hp. cbn [orb bool_decide decide_rel]. 
  rewrite (bool_decide_eq_true_2 ("" = "") eq_refl). cbn [orb write_file].
  reflexivity.
Qed.

Lemma export_model_empty (fdl : list slot) m name cls s :
  fdl !! m = Some (Rows []) ->
  export_model W fdl (m, (name, cls)) s
  = (inl (ValueError "No objects to concatenate"), s).
Proof.
  intros Hm. unfold export_model.
  rewrite bind_eq. unfold getitem. rewrite Hm. reflexivity.
Qed.

(** *** The whole cell *)

Lemma fit_all_ok files scs s :
  score_files W files = inr scs ->
  files <> [] ->
  "fits" ∈ st_dirs s ->
  fit_all W files s
  = (let l := length (st_heap s ++ concat (sc_rows <$> scs)) in
     inr [Frame l; Frame (l + 1); Frame (l + 2); Frame (l + 3)],
     mkState (st_heap s ++ concat (sc_rows <$> scs)
                ++ [table_of W 0 scs; table_of W 1 scs;
                    table_of W 2 scs; table_of W 3 scs])
             (st_dirs s)
             (apply_writes (pdf_writes scs ++ csv_writes W scs) (st_files s))
             (st_log s ++ all_events files scs)).
Proof.
  intros Hscs Hne Hdir. unfold fit_all.
  destruct (files_loop_ok files scs [] [] [] [] [] [] [] [] s Hscs Hdir)
    as (a & b & c & d & Hloop & Ha & Hb & Hc & Hd); try by constructor.
  rewrite (bind_inr _ _ _ _ _ Hloop). clear Hloop.
  cbn [app] in Ha, Hb, Hc, Hd.
  pose proof (score_files_models _ _ Hscs) as H4.
  assert (Hscs_ne : scs <> []).
  { intros ->. apply score_files_length in Hscs. by destruct files. }
  rewrite model_items_eq. cbn [fmap list_fmap foldM].
  set (h := st_heap s ++ concat (sc_rows <$> scs)) in *.
  erewrite bind_inr by
    (eapply export_model_ok;
     [reflexivity|exact Ha|apply table_of_concat; [done|lia|done]|reflexivity]).
  cbn [insert list_insert st_heap].
  erewrite bind_inr by
    (eapply export_model_ok;
     [reflexivity|apply frames_at_mono; exact Hb
     |apply table_of_concat; [done|lia|done]|reflexivity]).
  cbn [insert list_insert st_heap].
  erewrite bind_inr by
    (eapply export_model_ok;
     [reflexivity|do 2 apply frames_at_mono; exact Hc
     |apply table_of_concat; [done|lia|done]|reflexivity]).
  cbn [insert list_insert st_heap].
  erewrite bind_inr by
    (eapply export_model_ok;
     [reflexivity|do 3 apply frames_at_mono; exact Hd
     |apply table_of_concat; [done|lia|done]|reflexivity]).
  cbn [insert list_insert st_heap st_dirs st_files st_log].
  unfold mret, M_ret. rewrite !length_app. cbn [length].
  unfold apply_writes, all_events, csv_writes. rewrite foldl_app, model_list_eq.
  cbn [imap foldl fst snd fmap list_fmap compose].
  unfold h. rewrite <- !app_assoc, <- !Nat.add_assoc. reflexivity.
Qed.

Lemma fit_all_empty s :
  fit_all W [] s = (inl (ValueError "No objects to concatenate"), s).
Proof. reflexivity. Qed.

(** A run that returns has scored every file of a non-empty list and
    found the folder for the figures. *)
Lemma fit_all_inv files out s s' :
  fit_all W files s = (inr out, s') ->
  exists scs, score_files W files = inr scs
              /\ files <> [] /\ "fits" ∈ st_dirs s.
Proof.
  intros Hrun. destruct files as [|f files]; [by rewrite fit_all_empty in Hrun|].
  destruct (decide ("fits" ∈ st_dirs s)) as [Hd|Hd].
  - destruct (score_files W (f :: files)) as [e|scs] eqn:E; [|eauto].
    destruct (files_loop_fail (f :: files) e [] [] [] [] s E) as (e' & s1 & Hl & _).
    unfold fit_all in Hrun. by rewrite (bind_inl _ _ _ _ _ Hl) in Hrun.
  - destruct (files_loop_nodir (f :: files) [] [] [] [] s) as (e' & s1 & Hl); [done..|].
    unfold fit_all in Hrun. by rewrite (bind_inl _ _ _ _ _ Hl) in Hrun.
Qed.

(** The output-directory cell. *)
Lemma setup_out_dir_run s :
  exists s1, setup_out_dir s = (inr tt, s1)
             /\ st_dirs s1 = {["fits"]} ∪ st_dirs s
             /\ st_heap s1 = st_heap s /\ st_files s1 = st_files s
             /\ st_log s1 = st_log s.
Proof.
  unfold setup_out_dir. rewrite bind_eq. unfold os_path_exists.
  change (Str.rstrip sep out_dir) with "fits".
  destruct (decide ("fits" ∈ st_dirs s)) as [Hd|Hd].
  - rewrite (bool_decide_eq_true_2 _ Hd). cbn [negb]. exists s.
    repeat split. symmetry. apply subseteq_union_1_L.
    by apply singleton_subseteq_l.
  - rewrite (bool_decide_eq_false_2 _ Hd). cbn [negb]. unfold os_makedirs.
    change (Str.rstrip sep out_dir) with "fits".
    rewrite (bool_decide_eq_false_2 _ Hd).
    eexists. split; [done|]. done.
Qed.

(** *** What a computation leaves alone *)



Lemma no_csv_refl s : no_csv s s.
Proof. split; [|done]. exists []. by rewrite app_nil_r. Qed.

Lemma no_csv_trans s1 s2 s3 : no_csv s1 s2 -> no_csv s2 s3 -> no_csv s1 s3.
Proof.
  intros [(e1 & H1 & F1) G1] [(e2 & H2 & F2) G2]. split.
  - exists (e1 ++ e2). rewrite H2, H1, app_assoc. split; [done|]. by apply Forall_app.
  - intros name. by rewrite G2, G1.
Qed.




Lemma emit_no_csv ev : is_csv_event ev = false -> preserves no_csv (emit ev : M Data Model Comparison ()).
Proof.
  intros Hev s r s' [= _ <-]. split; [|done]. exists [ev]. cbn [st_log].
  split; [done|]. by repeat constructor.
Qed.

Lemma alloc_no_csv df : preserves no_csv (alloc df : M Data Model Comparison loc).
Proof.
  intros s r s' [= _ <-]. split; [|done]. exists []. by rewrite app_nil_r.
Qed.

Lemma savefig_no_csv initials commodity condition (fig : figure Data Model Comparison) :
  preserves no_csv (plt_savefig (savename_of initials commodity condition) fig).
Proof.
  unfold plt_savefig. apply (preserves_bind _ no_csv_trans).
  - by apply emit_no_csv.
  - intros _ s r s'. unfold open_w, write_file.
    destruct (_ || _); intros [= _ <-]; [|apply no_csv_refl].
    split; [exists []; by rewrite app_nil_r|]. intros name. cbn [st_files].
    apply lookup_insert_ne. apply savename_not_csv.
Qed.

(** Decomposes a computation along its binds, loops and case
    distinctions, down to the operations [leaf] knows. *)
Ltac preserving Hrefl Htrans leaf :=
  repeat first
    [ leaf
    | apply (preserves_ret _ Hrefl)
    | apply (preserves_raise _ Hrefl)
    | apply (preserves_lift _ Hrefl)
    | apply (preserves_getitem _ Hrefl)
    | apply (preserves_setitem _ Hrefl)
    | apply (preserves_deref _ Hrefl)
    | apply (preserves_foldM _ Hrefl Htrans); intros
    | apply (preserves_bind _ Htrans); [|intros]
    | match goal with
      | |- preserves _ (match ?x with _ => _ end) => destruct x
      end ].


Ltac no_csv_leaf :=
  first [by apply emit_no_csv|apply alloc_no_csv|apply savefig_no_csv].




Lemma fit_model_no_csv initials commodity condition data vars it :
  preserves no_csv (fit_model W initials commodity condition data vars it).
Proof.
  unfold fit_model. destruct vars as [[fd models] ax0], it as [m [name cls]].
  preserving no_csv_refl no_csv_trans no_csv_leaf.
Qed.

Lemma process_file_no_csv fd fname : preserves no_csv (process_file W fd fname).
Proof.
  unfold process_file, model_at.
  preserving no_csv_refl no_csv_trans ltac:(first [no_csv_leaf|apply fit_model_no_csv]).
Qed.

Lemma files_loop_inv files a b c d s fd1 s1 :
  foldM (process_file W) [a; b; c; d] files s = (inr fd1, s1) ->
  exists scs, score_files W files = inr scs
              /\ (files = [] \/ "fits" ∈ st_dirs s).
Proof.
  intros Hrun. destruct (score_files W files) as [e|scs] eqn:E.
  - destruct (files_loop_fail files e a b c d s E) as (e' & s' & H & _). congruence.
  - exists scs. split; [done|]. destruct files as [|f files]; [by left|right].
    destruct (decide ("fits" ∈ st_dirs s)) as [|Hd]; [done|].
    destruct (files_loop_nodir (f :: files) a b c d s) as (e' & s' & H); [done..|].
    congruence.
Qed.


Lemma files_loop_no_csv fd files : preserves no_csv (foldM (process_file W) fd files).
Proof.
  apply (preserves_foldM _ no_csv_refl no_csv_trans).
  intros. apply process_file_no_csv.
Qed.


(** The cell, entered after a prefix of the files has been processed. *)
Lemma fit_all_app pre post s :
  fit_all W (pre ++ post) s =
  match foldM (process_file W) [[]; []; []; []] pre s with
  | (inl e, s1) => (inl e, s1)
  | (inr fd1, s1) =>
      (foldM (process_file W) fd1 post
         ≫= fun fd => foldM (export_model W) (Rows <$> fd) (enumerate_items model_list)) s1
  end.
Proof.
  unfold fit_all. rewrite bind_eq, foldM_app, bind_eq.
  destruct (foldM (process_file W) _ pre s) as [[e|fd1] s1]; [done|].
  by rewrite bind_eq.
Qed.

End Run.

(** ** Whole runs *)

Section Runs.

Context {Data Model Comparison : Type}.
Variable W : World Data Model Comparison.



Lemma notebook_ok files scs (s : state Data Model Comparison) :
  score_files W files = inr scs -> files <> [] ->
  exists out s',
    notebook W files s = (inr out, s')
    /\ st_files s' = apply_writes (pdf_writes scs ++ csv_writes W scs) (st_files s)
    /\ st_log s' = st_log s ++ all_events files scs
    /\ st_dirs s' = {["fits"]} ∪ st_dirs s.
Proof.
  intros Hscs Hne. unfold notebook.
  destruct (setup_out_dir_run s) as (s1 & Hs1 & Hd & Hh & Hf & Hl).
  rewrite (bind_inr _ _ _ _ _ Hs1), (fit_all_ok W files scs s1 Hscs Hne).
  - eexists _, _. split; [done|]. cbn [st_files st_log st_dirs].
    by rewrite Hf, Hl, Hd.
  - rewrite Hd. apply elem_of_union_l. by apply elem_of_singleton_2.
Qed.

(** *** From the files to the rows of one model *)

Implicit Types (sc : scored Data Model Comparison) (scs : list (scored Data Model Comparison)).

Lemma score_models_lookup initials commodity condition data its sms :
  score_models W initials commodity condition data its = inr sms ->
  forall m it, its !! m = Some it ->
    exists sm, sms !! m = Some sm
               /\ score_model W initials commodity condition data it = inr sm.
Proof.
  revert sms. induction its as [|it0 its IH]; intros sms; cbn [score_models]; [done|].
  destruct (score_model W _ _ _ _ it0) as [|sm0] eqn:E0; [done|].
  destruct (score_models W _ _ _ _ its) as [|sms']; [done|].
  intros [= <-] [|m] it; cbn.
  - intros [= <-]. eauto.
  - by apply IH.
Qed.

Lemma score_file_lookup fname sc :
  score_file W fname = inr sc ->
  forall m it, model_list !! m = Some it ->
    exists sm, sc_models sc !! m = Some sm
               /\ score_model W (sc_initials sc) (sc_commodity sc) (sc_condition sc)
                    (sc_data sc) it = inr sm.
Proof.
  unfold score_file.
  destruct (parse_filename fname) as [|[[i c] cd]]; [done|].
  destruct (read_csv W fname) as [|data]; [done|].
  destruct (score_models W i c cd data model_list) as [|sms] eqn:E; [done|].
  destruct (pm_compare W _); [done|]. intros [= <-]. cbn.
  by apply score_models_lookup.
Qed.

(** A property of every row built for the model at position [m] holds
    of every row collected for it. *)
Lemma rows_of_Forall (Q : DataFrame -> Prop) files scs m it :
  score_files W files = inr scs ->
  model_list !! m = Some it ->
  (forall initials commodity condition data sm,
      score_model W initials commodity condition data it = inr sm -> Q (sm_row sm)) ->
  Forall Q (rows_of m scs).
Proof.
  intros Hscs Hm HQ. revert scs Hscs.
  induction files as [|f files IH]; intros scs; cbn [score_files].
  - intros [= <-]. constructor.
  - destruct (score_file W f) as [|sc] eqn:Ef; [done|].
    destruct (score_files W files) as [|scs']; [done|].
    intros [= <-]. unfold rows_of. cbn [omap list_omap].
    destruct (score_file_lookup _ _ Ef m it Hm) as (sm & Hsm & Hs).
    unfold sc_rows. rewrite list_lookup_fmap, Hsm. cbn.
    constructor; [by eapply HQ|by apply IH].
Qed.

Lemma make_info_eq initials commodity condition model_name mo :
  make_info W initials commodity condition model_name mo =
  dict_update
    [("id", Column [VStr initials]);
     ("commodity", Column [VStr commodity]);
     ("condition", Column [VStr condition]);
     ("model", Column [VStr model_name]);
     ("log_loss", Column [VNum (np_median W (metrics_log_loss W mo))]);
     ("AUC", Column [VNum (metrics_AUC W mo)]);
     ("WAIC", Column [VNum (metrics_WAIC W mo)]);
     ("roc_auc", Column [VNum (metrics_roc_auc W mo)])]
    (prod_map id (fun x => Scalar (VNum x)) <$> mean_parameters W mo).
Proof. reflexivity. Qed.

Lemma score_model_one_row initials commodity condition data it sm :
  score_model W initials commodity condition data it = inr sm ->
  length (records (sm_row sm)) = 1.
Proof.
  unfold score_model. destruct (fit_one W data it.2) as [|fitted]; [done|].
  destruct (DataFrame_from_dict _) as [|row] eqn:E; [done|].
  intros [= <-]. cbn [sm_row]. eapply from_dict_one_row; [|exact E].
  rewrite make_info_eq. apply one_row_update_scalars.
  repeat (constructor; [by right|]). constructor.
Qed.

Lemma table_of_length files scs m it :
  score_files W files = inr scs -> files <> [] ->
  model_list !! m = Some it ->
  length (records (table_of W m scs)) = length files.
Proof.
  intros Hscs Hne Hm.
  assert (Hm4 : m < 4) by (apply lookup_lt_Some in Hm; exact Hm).
  pose proof (score_files_models W _ _ Hscs) as H4.
  rewrite (pd_concat_length (union_columns W) (rows_of m scs)).
  - rewrite rows_of_length by done. by eapply score_files_length.
  - eapply rows_of_Forall; [done..|]. intros. by eapply score_model_one_row.
  - apply table_of_concat; [done..|].
    intros ->. apply score_files_length in Hscs. by destruct files.
Qed.

Lemma model_list_keys name :
  name ∈ dict_keys model_list -> exists m cls, model_list !! m = Some (name, cls).
Proof.
  rewrite model_list_eq. cbn. rewrite !elem_of_cons, elem_of_nil.
  intros [->|[->|[->|[->|[]]]]];
    [by exists 0, Exponential|by exists 1, Hyperbolic
    |by exists 2, ModifiedRachlin|by exists 3, Hyperboloid].
Qed.

(** The last write to the file of the model at position [m] is its table. *)
Lemma final_csv scs (fs : gmap string (content Data Model Comparison)) m name cls :
  model_list !! m = Some (name, cls) ->
  apply_writes (pdf_writes scs ++ csv_writes W scs) fs !! csv_name name
  = Some (csv_of (table_of W m scs)).
Proof.
  unfold apply_writes, csv_writes. rewrite foldl_app, model_list_eq.
  cbn [imap foldl fst snd compose].
  destruct m as [|[|[|[|m]]]]; cbn; intros [= <- <-]; try done.
  - rewrite !lookup_insert_ne by (cbv; discriminate). apply lookup_insert_eq.
  - rewrite !lookup_insert_ne by (cbv; discriminate). apply lookup_insert_eq.
  - rewrite !lookup_insert_ne by (cbv; discriminate). apply lookup_insert_eq.
  - apply lookup_insert_eq.
Qed.


(** C4.  A file name that does not split into exactly five fields
    makes the parser raise [ValueError]; the exception is not caught,
    so the cell stops there: it raises, no [.csv] is written, and what
    it did does not depend on the files after the offending one. *)
Theorem malformed_halts (fname : string) :
  malformed fname = true ->
  (exists msg, parse_filename fname = inl (ValueError msg))
  /\ forall (pre post : list string) (s : state Data Model Comparison),
       (exists e s',
           fit_all W (pre ++ fname :: post) s = (inl e, s')
           /\ no_csv s s'
           /\ forall post', fit_all W (pre ++ fname :: post') s = (inl e, s'))
       /\ (forall fd1 s1,
              foldM (process_file W) [[]; []; []; []] pre s = (inr fd1, s1) ->
              exists msg,
                fit_all W (pre ++ fname :: post) s = (inl (ValueError msg), s1)).
Proof.
  intros Hbad. destruct (parse_filename_malformed _ Hbad) as [msg Hmsg].
  split; [eauto|]. intros pre post s.
  assert (Hstop : forall fd1 s1 post',
             (foldM (process_file W) fd1 (fname :: post')
                ≫= fun fd => foldM (export_model W) (Rows <$> fd)
                               (enumerate_items model_list)) s1
             = (inl (ValueError msg), s1)).
  { intros fd1 s1 post'. cbn [foldM]. unfold process_file.
    rewrite !bind_eq. cbn [lift]. by rewrite Hmsg. }
  split.
  - pose proof (files_loop_no_csv W [[]; []; []; []] pre s) as Hpre.
    destruct (foldM (process_file W) _ pre s) as [[e|fd1] s1] eqn:E.
    + exists e, s1. split; [by rewrite fit_all_app, E|].
      split; [by eapply Hpre|]. intros post'. by rewrite fit_all_app, E.
    + exists (ValueError msg), s1. split; [by rewrite fit_all_app, E, Hstop|].
      split; [by eapply Hpre|]. intros post'. by rewrite fit_all_app, E, Hstop.
  - intros fd1 s1 E. exists msg. by rewrite fit_all_app, E, Hstop.
Qed.


(** *** The shape of the rows *)

(** The row of a model whose parameters have new names. *)
Lemma score_model_row initials commodity condition data name cls sm :
  score_model W initials commodity condition data (name, cls) = inr sm ->
  NoDup (info_keys ++ dict_keys (mean_parameters W (sm_model sm))) ->
  sm_row sm =
  {| columns := info_keys ++ dict_keys (mean_parameters W (sm_model sm));
     records :=
       [[VStr initials; VStr commodity; VStr condition; VStr name;
         VNum (np_median W (metrics_log_loss W (sm_model sm)));
         VNum (metrics_AUC W (sm_model sm));
         VNum (metrics_WAIC W (sm_model sm));
         VNum (metrics_roc_auc W (sm_model sm))]
        ++ (VNum <$> (mean_parameters W (sm_model sm)).*2)] |}.
Proof.
  unfold score_model. cbn [fst snd].
  destruct (fit_one W data cls) as [|fitted]; [done|].
  destruct (DataFrame_from_dict _) as [|row] eqn:E; [done|].
  intros [= <-] Hnd. cbn [sm_row sm_model] in *.
  rewrite make_info_eq, dict_update_fresh in E.
  - unfold DataFrame_from_dict in E.
    rewrite omap_app, omap_scalars in E. cbn in E.
    injection E as <-.
    by rewrite cells_scalars, keys_scalars.
  - unfold dict_keys in *. by rewrite keys_scalars.
Qed.

Lemma score_files_Forall2 files scs :
  score_files W files = inr scs ->
  Forall2 (fun f sc => score_file W f = inr sc) files scs.
Proof.
  revert scs. induction files as [|f files IH]; intros scs; cbn [score_files].
  - intros [= <-]. constructor.
  - destruct (score_file W f) as [|sc] eqn:Ef; [done|].
    destruct (score_files W files) as [|scs']; [done|].
    intros [= <-]. constructor; [done|by apply IH].
Qed.

(** A property of the row built for the model at position [m] of
    every file holds of every row collected for that model. *)
Lemma rows_of_Forall_files (Q : DataFrame -> Prop) files scs m it :
  score_files W files = inr scs ->
  model_list !! m = Some it ->
  (forall f sc sm,
      f ∈ files -> score_file W f = inr sc -> sc_models sc !! m = Some sm ->
      score_model W (sc_initials sc) (sc_commodity sc) (sc_condition sc)
        (sc_data sc) it = inr sm ->
      Q (sm_row sm)) ->
  Forall Q (rows_of m scs).
Proof.
  intros Hscs%score_files_Forall2 Hm HQ.
  induction Hscs as [|f sc files scs Hf _ IH]; [constructor|].
  unfold rows_of. cbn [omap list_omap].
  destruct (score_file_lookup _ _ Hf m it Hm) as (sm & Hsm & Hs).
  unfold sc_rows at 1. rewrite list_lookup_fmap, Hsm. cbn.
  constructor.
  - eapply (HQ f sc sm); [left|done..].
  - apply IH. intros f' sc' sm' Hin. apply HQ. by right.
Qed.

Lemma params_named_lookup names fname sc m sm name cls :
  params_named W names fname = true ->
  score_file W fname = inr sc ->
  sc_models sc !! m = Some sm ->
  model_list !! m = Some (name, cls) ->
  dict_keys (mean_parameters W (sm_model sm)) = names cls.
Proof.
  unfold params_named. intros H Hsc Hsm Hm. rewrite Hsc in H.
  rewrite forallb_forall in H.
  assert (Hin : In (sm, (name, cls)) (zip (sc_models sc) model_list)).
  { apply list_elem_of_In, list_elem_of_lookup. exists m.
    apply lookup_zip_with_Some. eauto. }
  apply H in Hin. by apply bool_decide_eq_true_1 in Hin.
Qed.

Lemma names_fresh_lookup names m name cls :
  names_fresh names = true ->
  model_list !! m = Some (name, cls) ->
  NoDup (info_keys ++ names cls).
Proof.
  unfold names_fresh. intros H Hm. rewrite forallb_forall in H.
  assert (Hin : In (name, cls) model_list).
  { apply list_elem_of_In, list_elem_of_lookup. eauto. }
  apply H in Hin. by apply bool_decide_eq_true_1 in Hin.
Qed.

(** The table of the model at position [m], when the parameters are
    named as [names] says: its columns, and what every record holds. *)
Lemma table_of_shape names files scs m name cls :
  names_fresh names = true ->
  forallb (params_named W names) files = true ->
  score_files W files = inr scs -> files <> [] ->
  model_list !! m = Some (name, cls) ->
  columns (table_of W m scs) = info_keys ++ names cls
  /\ Forall (fun r => length r = length (info_keys ++ names cls)
                      /\ cell (info_keys ++ names cls) r "model" = Some (VStr name))
            (records (table_of W m scs)).
Proof.
  intros Hfresh Hnamed Hscs Hne Hm.
  pose proof (names_fresh_lookup _ _ _ _ Hfresh Hm) as Hnd.
  set (K := info_keys ++ names cls) in *.
  assert (Hrows : Forall (fun row =>
             columns row = K
             /\ Forall (fun r => length r = length K
                                 /\ cell K r "model" = Some (VStr name))
                       (records row)) (rows_of m scs)).
  { eapply rows_of_Forall_files; [done..|].
    intros f sc sm Hf Hsc Hsm Hs.
    rewrite forallb_forall in Hnamed.
    pose proof (params_named_lookup names f sc m sm name cls
                  (Hnamed f (proj1 (list_elem_of_In _ _) Hf)) Hsc Hsm Hm) as Hk.
    rewrite (score_model_row _ _ _ _ _ _ _ Hs) by (by rewrite Hk).
    rewrite Hk. cbn [columns records]. split; [done|].
    repeat constructor.
    unfold K. rewrite !length_app, length_fmap, <- Hk. unfold dict_keys.
    by rewrite !length_fmap. }
  assert (Hm4 : m < 4) by (apply lookup_lt_Some in Hm; exact Hm).
  pose proof (score_files_models W _ _ Hscs) as H4.
  assert (Hscs_ne : scs <> []).
  { intros ->. apply score_files_length in Hscs. by destruct files. }
  pose proof (table_of_concat W m scs H4 Hm4 Hscs_ne) as Ht.
  rewrite (pd_concat_aligned _ K) in Ht.
  - injection Ht as <-. cbn [columns records]. split; [done|].
    apply Forall_concat, Forall_fmap. eapply Forall_impl; [exact Hrows|].
    by intros row [_ Hr].
  - intros E. apply (f_equal length) in E. rewrite rows_of_length in E by done.
    by destruct scs.
  - eapply Forall_impl; [exact Hrows|]. by intros row [Hc _].
Qed.

(** *** Runs that return *)

Lemma notebook_inv files (s : state Data Model Comparison) out s' :
  notebook W files s = (inr out, s') ->
  exists scs, score_files W files = inr scs /\ files <> [].
Proof.
  unfold notebook. destruct (setup_out_dir_run s) as (s1 & Hs1 & _).
  rewrite (bind_inr _ _ _ _ _ Hs1). intros Hrun.
  destruct (fit_all_inv W _ _ _ _ Hrun) as (scs & Hscs & Hne & _). eauto.
Qed.

Lemma model_events_no_csv (sms : list (scored_model Model)) :
  omap csv_path (model_events (Comparison:=Comparison) sms) = [].
Proof. induction sms as [|sm sms IH]; [done|]. exact IH. Qed.

Lemma sc_events_no_csv files scs :
  omap csv_path (concat (zip_with sc_events files scs)) = [].
Proof.
  revert scs. induction files as [|f files IH]; intros [|sc scs]; try done.
  cbn [zip_with concat]. rewrite omap_app, IH, app_nil_r.
  unfold sc_events. cbn [omap list_omap csv_path].
  by rewrite omap_app, model_events_no_csv.
Qed.

Lemma all_events_csv files scs :
  omap csv_path (all_events files scs)
  = ["parameter_estimation_Exponential.csv";
     "parameter_estimation_Hyperbolic.csv";
     "parameter_estimation_ModifiedRachlin.csv";
     "parameter_estimation_Hyperboloid.csv"].
Proof. unfold all_events. by rewrite omap_app, sc_events_no_csv. Qed.

(** A run that returns has written [length files] rows to each
    table, whatever the files are. *)
Lemma returned_row_count files (s : state Data Model Comparison) out s' :
  notebook W files s = (inr out, s') -> each_csv_has_rows (length files) s'.
Proof.
  intros Hrun. destruct (notebook_inv _ _ _ _ Hrun) as (scs & Hscs & Hne).
  destruct (notebook_ok files scs s Hscs Hne) as (o & t & Hrun1 & Hfs & _).
  rewrite Hrun in Hrun1. injection Hrun1 as <- <-.
  intros name (m & cls & Hm)%model_list_keys.
  unfold csv_table. rewrite Hfs, (final_csv _ _ _ _ _ Hm). cbn [csv_of].
  eexists _, _. split; [done|]. by eapply table_of_length.
Qed.

(** C3.  A run that returns has called [to_csv] exactly four times,
    once per discount function, on [parameter_estimation_<model>.csv];
    each table is in long format, one row per file, and every row has
    the columns id, commodity, condition, model, log_loss, AUC, WAIC,
    roc_auc followed by the parameter columns of the model.  The
    parameter names are those the fitted models report: [names] gives
    them per class, distinct from each other and from the eight
    leading columns. *)
Theorem csv_per_model (names : model_class -> list string)
    (files : list string) (s : state Data Model Comparison) out s' :
  names_fresh names = true ->
  forallb (params_named W names) files = true ->
  notebook W files s = (inr out, s') ->
  (exists evs, st_log s' = st_log s ++ evs
               /\ omap csv_path evs
                  = ["parameter_estimation_Exponential.csv";
                     "parameter_estimation_Hyperbolic.csv";
                     "parameter_estimation_ModifiedRachlin.csv";
                     "parameter_estimation_Hyperboloid.csv"])
  /\ forall m name cls, model_list !! m = Some (name, cls) ->
       exists rows,
         csv_table s' name
         = Some (["id"; "commodity"; "condition"; "model";
                  "log_loss"; "AUC"; "WAIC"; "roc_auc"] ++ names cls, rows)
         /\ length rows = length files
         /\ Forall (fun r => length r = 8 + length (names cls)) rows.
Proof.
  intros Hfresh Hnamed Hrun.
  destruct (notebook_inv _ _ _ _ Hrun) as (scs & Hscs & Hne).
  destruct (notebook_ok files scs s Hscs Hne) as (out1 & s1 & Hrun1 & Hfs & Hlog & _).
  rewrite Hrun in Hrun1. injection Hrun1 as <- <-.
  split.
  - exists (all_events files scs). split; [done|]. apply all_events_csv.
  - intros m name cls Hm.
    destruct (table_of_shape names files scs m name cls) as [Hcols Hrecs]; try done.
    exists (records (table_of W m scs)).
    unfold csv_table. rewrite Hfs, (final_csv _ _ _ _ _ Hm). cbn [csv_of].
    rewrite Hcols. split; [done|]. split; [by eapply table_of_length|].
    eapply Forall_impl; [exact Hrecs|]. intros r [Hr _].
    by rewrite Hr, length_app.
Qed.

(** C10.  In a run that returns, the table exported as
    [parameter_estimation_<name>.csv] holds only rows whose [model]
    cell is [name]: the position of a name in [model_list], whose
    order is Exponential, Hyperbolic, ModifiedRachlin, Hyperboloid, is
    the position of its rows in [fit_data] in both loops.  The
    parameter names are as in C3, so that none of them is [model]. *)
Theorem csv_holds_own_model (names : model_class -> list string)
    (files : list string) (s : state Data Model Comparison) out s' :
  names_fresh names = true ->
  forallb (params_named W names) files = true ->
  notebook W files s = (inr out, s') ->
  dict_keys model_list = ["Exponential"; "Hyperbolic"; "ModifiedRachlin"; "Hyperboloid"]
  /\ forall m name cls, model_list !! m = Some (name, cls) ->
       exists header rows,
         csv_table s' name = Some (header, rows)
         /\ Forall (fun r => cell header r "model" = Some (VStr name)) rows.
Proof.
  intros Hfresh Hnamed Hrun. split; [reflexivity|].
  destruct (notebook_inv _ _ _ _ Hrun) as (scs & Hscs & Hne).
  destruct (notebook_ok files scs s Hscs Hne) as (out1 & s1 & Hrun1 & Hfs & _).
  rewrite Hrun in Hrun1. injection Hrun1 as <- <-.
  intros m name cls Hm.
  destruct (table_of_shape names files scs m name cls) as [Hcols Hrecs]; try done.
  exists (columns (table_of W m scs)), (records (table_of W m scs)).
  unfold csv_table. rewrite Hfs, (final_csv _ _ _ _ _ Hm). cbn [csv_of].
  split; [done|]. rewrite Hcols.
  eapply Forall_impl; [exact Hrecs|]. by intros r [_ Hr].
Qed.

(** *** Running the notebook again *)

(** Writing is overwriting: the files written are those of the last
    writes, whatever was there before. *)
Lemma apply_writes_union (ws : list (string * content Data Model Comparison)) fs :
  apply_writes ws fs = list_to_map (reverse ws) ∪ fs.
Proof.
  unfold apply_writes. revert fs. induction ws as [|[p c] ws IH]; intros fs; cbn [foldl].
  - cbn. by rewrite (left_id_L ∅ (∪)).
  - rewrite IH, reverse_cons, list_to_map_app. cbn [list_to_map foldr fst snd].
    rewrite insert_empty, <- (assoc_L (∪)).
    by rewrite <- insert_union_singleton_l.
Qed.


(** Later writes to the same paths hide the earlier ones. *)
Lemma apply_writes_shadow (ws1 ws2 : list (string * content Data Model Comparison)) fs :
  ws1.*1 ⊆ ws2.*1 ->
  apply_writes ws2 (apply_writes ws1 fs) = apply_writes ws2 fs.
Proof.
  intros Hsub. rewrite !apply_writes_union. apply map_eq. intros p.
  destruct ((list_to_map (reverse ws2) : gmap string _) !! p) as [c|] eqn:E.
  - by rewrite !(lookup_union_Some_l _ _ _ _ E).
  - rewrite !(lookup_union_r _ _ _ E). apply lookup_union_r.
    apply not_elem_of_list_to_map. apply not_elem_of_list_to_map in E.
    intros Hp. apply E. rewrite fmap_reverse, elem_of_reverse in *. by apply Hsub.
Qed.

Lemma score_file_ids fname sc :
  score_file W fname = inr sc ->
  parse_filename fname = inr (sc_initials sc, sc_commodity sc, sc_condition sc).
Proof.
  unfold score_file.
  destruct (parse_filename fname) as [|[[i c] cd]]; [done|].
  destruct (read_csv W fname); [done|]. destruct (score_models W _ _ _ _ _); [done|].
  destruct (pm_compare W _); [done|]. by intros [= <-].
Qed.

(** The paths of the figures depend on the file names only. *)
Lemma pdf_paths files scs :
  score_files W files = inr scs ->
  (pdf_writes scs).*1
  = omap (fun f => match parse_filename f with
                   | inr (i, c, cd) => Some (savename_of i c cd)
                   | inl _ => None
                   end) files.
Proof.
  intros H%score_files_Forall2. induction H as [|f sc files scs Hf _ IH]; [done|].
  cbn [omap list_omap pdf_writes fmap list_fmap fst].
  rewrite (score_file_ids _ _ Hf). cbn. f_equal. exact IH.
Qed.

Lemma csv_paths scs :
  (csv_writes W scs).*1 = (fun kv => csv_name kv.1) <$> model_list.
Proof. reflexivity. Qed.


End Runs.

(** ** Two runs with different fits *)

(** The second of two runs over the same files replaces every file the
    first has written, also when its fits differ: after both runs the
    file system is what the second run alone would have left. *)
Lemma rerun_replaces {Data Model Comparison : Type}
    (W1 W2 : World Data Model Comparison) (files : list string)
    (s : state Data Model Comparison) out1 s1 out2 s2 :
  notebook W1 files s = (inr out1, s1) ->
  notebook W2 files s = (inr out2, s2) ->
  forall s1' : state Data Model Comparison, same_fs s1 s1' ->
    exists out s3, notebook W2 files s1' = (inr out, s3) /\ same_fs s3 s2.
Proof.
  intros Hrun1 Hrun2 s1' [Hdirs Hfiles].
  destruct (notebook_inv _ _ _ _ _ Hrun1) as (scs1 & Hscs1 & Hne).
  destruct (notebook_inv _ _ _ _ _ Hrun2) as (scs2 & Hscs2 & _).
  destruct (notebook_ok W1 files scs1 s Hscs1 Hne) as (o & t & H1 & Hf1 & _ & Hd1).
  rewrite Hrun1 in H1. injection H1 as <- <-.
  destruct (notebook_ok W2 files scs2 s Hscs2 Hne) as (o & t & H2 & Hf2 & _ & Hd2).
  rewrite Hrun2 in H2. injection H2 as <- <-.
  destruct (notebook_ok W2 files scs2 s1' Hscs2 Hne) as (out & s3 & H3 & Hf3 & _ & Hd3).
  exists out, s3. split; [done|]. split.
  - rewrite Hd3, <- Hdirs, Hd1, Hd2, (assoc_L (∪)). by rewrite (idemp_L (∪)).
  - rewrite Hf3, <- Hfiles, Hf1, Hf2. apply apply_writes_shadow.
    rewrite !fmap_app, !csv_paths, (pdf_paths _ _ _ Hscs1), (pdf_paths _ _ _ Hscs2).
    done.
Qed.

(** ** The demonstration world *)



Lemma malformed_halts_witness :
  malformed "../data/discounting/notes.txt" = true
  /\ foldM (process_file Demo.world) [[]; []; []; []] Demo.files Demo.s_ready
     = (inr [[0; 4]; [1; 5]; [2; 6]; [3; 7]],
        (foldM (process_file Demo.world) [[]; []; []; []] Demo.files Demo.s_ready).2)
  /\ exists msg,
       fit_all Demo.world (Demo.files ++ ["../data/discounting/notes.txt"]) Demo.s_ready
       = (inl (ValueError msg),
          (foldM (process_file Demo.world) [[]; []; []; []] Demo.files Demo.s_ready).2).
Proof.
  assert (Hpre : foldM (process_file Demo.world) [[]; []; []; []] Demo.files Demo.s_ready
     = (inr [[0; 4]; [1; 5]; [2; 6]; [3; 7]],
        (foldM (process_file Demo.world) [[]; []; []; []] Demo.files Demo.s_ready).2))
    by (vm_compute; reflexivity).
  split; [reflexivity|]. split; [exact Hpre|].
  exact (proj2 (proj2 (malformed_halts Demo.world "../data/discounting/notes.txt" eq_refl)
                  Demo.files [] Demo.s_ready) _ _ Hpre).
Defined.

Lemma csv_per_model_witness :
  names_fresh Demo.param_names = true
  /\ forallb (params_named Demo.world Demo.param_names) Demo.files = true
  /\ exists rows,
       csv_table Demo.s1 "Hyperboloid"
       = Some (["id"; "commodity"; "condition"; "model";
                "log_loss"; "AUC"; "WAIC"; "roc_auc"] ++ ["logk"; "s"], rows)
       /\ length rows = 2
       /\ Forall (fun r => length r = 8 + 2) rows.
Proof.
  split; [vm_compute; reflexivity|]. split; [vm_compute; reflexivity|].
  assert (Hrun : notebook Demo.world Demo.files Demo.s0
                 = (inr [Frame 8; Frame 9; Frame 10; Frame 11], Demo.s1))
    by (vm_compute; reflexivity).
  apply (proj2 (csv_per_model Demo.world Demo.param_names Demo.files Demo.s0 _ _
                  ltac:(vm_compute; reflexivity) ltac:(vm_compute; reflexivity) Hrun)
           3 "Hyperboloid" Hyperboloid eq_refl).
Defined.

Lemma csv_holds_own_model_witness :
  names_fresh Demo.param_names = true
  /\ forallb (params_named Demo.world Demo.param_names) Demo.files = true
  /\ exists header rows,
       csv_table Demo.s1 "Hyperbolic" = Some (header, rows)
       /\ Forall (fun r => cell header r "model" = Some (VStr "Hyperbolic")) rows.
Proof.
  split; [vm_compute; reflexivity|]. split; [vm_compute; reflexivity|].
  assert (Hrun : notebook Demo.world Demo.files Demo.s0
                 = (inr [Frame 8; Frame 9; Frame 10; Frame 11], Demo.s1))
    by (vm_compute; reflexivity).
  apply (proj2 (csv_holds_own_model Demo.world Demo.param_names Demo.files Demo.s0 _ _
                  ltac:(vm_compute; reflexivity) ltac:(vm_compute; reflexivity) Hrun)
           1 "Hyperbolic" Hyperbolic eq_refl).
Defined.


(** * Further properties of the cells *)

(** ** The file-name parser *)

Lemma split_length (c : ascii) (s : string) :
  length (Str.split c s) = S (count_char c s).
Proof.
  induction s as [|a s IH]; [done|]. cbn [Str.split count_char].
  destruct (Ascii.eqb a c); cbn.
  - by rewrite IH.
  - destruct (Str.split c s); [done|]. exact IH.
Qed.

Lemma join_split (c : ascii) (s : string) : join c (Str.split c s) = s.
Proof.
  induction s as [|a s IH]; [done|]. cbn [Str.split].
  destruct (Ascii.eqb_spec a c) as [->|Hne].
  - pose proof (StrFacts.split_nonempty c s) as Hn.
    destruct (Str.split c s) as [|w ws]; [done|].
    change (join c ("" :: w :: ws)) with (String c (join c (w :: ws))).
    by rewrite IH.
  - pose proof (StrFacts.split_nonempty c s) as Hn.
    destruct (Str.split c s) as [|w ws]; [done|].
    destruct ws as [|w' ws]; cbn in *; by rewrite <- IH.
Qed.

Lemma split_own_fields_free (c : ascii) (s : string) :
  Forall (fun w => Str.free_of c w = true) (Str.split c s).
Proof.
  induction s as [|a s IH]; cbn [Str.split]; [by repeat constructor|].
  destruct (Ascii.eqb a c) eqn:E.
  - by constructor.
  - destruct (Str.split c s) as [|w ws]; [repeat constructor; cbn; by rewrite E|].
    inversion IH; subst. constructor; [|done]. cbn. by rewrite E.
Qed.

Lemma basename_free (fname : string) : Str.free_of sep (basename fname) = true.
Proof. apply StrFacts.drop_rfind_free. Qed.

(** X1.  Whether [parse_filename] returns is decided by the number of
    hyphens in the file part of the path alone: with exactly four it
    returns, with fewer the unpacking raises "not enough values" and
    reports the number of fields found, with more it raises "too many
    values". *)
Theorem parse_filename_by_hyphens (fname : string) :
  match Nat.compare (count_char hyphen (basename fname)) 4 with
  | Eq => exists initials commodity condition,
            parse_filename fname = inr (initials, commodity, condition)
  | Lt => parse_filename fname
          = inl (ValueError ("not enough values to unpack (expected 5, got "
                             +:+ pretty (S (count_char hyphen (basename fname))) +:+ ")"))
  | Gt => parse_filename fname
          = inl (ValueError "too many values to unpack (expected 5)")
  end.
Proof.
  rewrite parse_filename_unfold. fold (basename fname).
  pose proof (split_length hyphen (basename fname)) as Hlen.
  destruct (Str.split hyphen (basename fname)) as [|a [|b [|c [|d [|e [|x l]]]]]];
    cbn [length] in Hlen; try discriminate Hlen;
    injection Hlen as Hlen; rewrite <- Hlen; cbn; eauto.
Qed.

(** X2.  What [parse_filename] returns determines the file part of the
    path up to its date and time: the file part is the three returned
    fields and two more, joined by hyphens, and none of the five
    contains a hyphen or a path separator. *)
Theorem parse_filename_inv (fname initials commodity condition : string) :
  parse_filename fname = inr (initials, commodity, condition) ->
  exists date time,
    basename fname = join5 initials commodity condition date time
    /\ forallb field_ok [initials; commodity; condition; date; time] = true.
Proof.
  rewrite parse_filename_unfold. fold (basename fname).
  pose proof (join_split hyphen (basename fname)) as Hj.
  pose proof (split_own_fields_free hyphen (basename fname)) as Hh.
  pose proof (StrFacts.split_fields_free hyphen sep _ (basename_free fname)) as Hs.
  destruct (Str.split hyphen (basename fname)) as [|a [|b [|c [|d [|e [|x l]]]]]];
    try done.
  cbn [unpack5]. intros [= <- <- <-]. exists d, e. split; [by rewrite <- Hj|].
  cbn [forallb]. unfold field_ok.
  repeat (apply Forall_cons_1 in Hh as [-> Hh]).
  repeat (apply Forall_cons_1 in Hs as [-> Hs]). done.
Qed.

(** X3.  The folder plays no part: whatever stands in front of the last
    path separator, hyphens included, [parse_filename] gives what it
    gives on the file part alone, the same fields or the same error. *)
Theorem parse_filename_folder (folder file : string) :
  Str.free_of sep file = true ->
  parse_filename (folder +:+ "/" +:+ file) = parse_filename file.
Proof.
  intros H. rewrite !parse_filename_unfold.
  change (folder +:+ "/" +:+ file) with (folder +:+ String sep file).
  by rewrite os_path_split_tail, os_path_split_bare.
Qed.

(** ** The paths of the figures *)

Lemma string_length_app (s t : string) :
  String.length (s +:+ t) = String.length s + String.length t.
Proof.
  induction s as [|a s IH]; [done|].
  change (S (String.length (s +:+ t)) = S (String.length s) + String.length t).
  by rewrite IH.
Qed.

Lemma append_cancel_r (s s' t : string) : s +:+ t = s' +:+ t -> s = s'.
Proof.
  revert s'. induction s as [|a s IH]; intros [|b s'] H; [done|..].
  - apply (f_equal String.length) in H. rewrite !string_length_app in H. cbn in H. lia.
  - apply (f_equal String.length) in H. rewrite !string_length_app in H. cbn in H. lia.
  - injection H as -> H. f_equal. by apply IH.
Qed.

(** Two strings that agree up to the first separator agree on what
    stands before it and on what follows. *)
Lemma first_field_inj (c : ascii) (a a' s s' : string) :
  Str.free_of c a = true -> Str.free_of c a' = true ->
  a +:+ String c s = a' +:+ String c s' -> a = a' /\ s = s'.
Proof.
  revert a'. induction a as [|x a IH]; intros [|y a']; cbn.
  - by intros _ _ [= ->].
  - intros _ [Hy _]%andb_prop [= <- _]. by rewrite Ascii.eqb_refl in Hy.
  - intros [Hx _]%andb_prop _ [= -> _]. by rewrite Ascii.eqb_refl in Hx.
  - intros [_ Ha]%andb_prop [_ Ha']%andb_prop [= -> H].
    destruct (IH a' Ha Ha' H) as [-> ->]. done.
Qed.

(** X4.  Sessions whose initials and commodity contain no underscore get
    figure paths of their own: the path determines the three fields.
    (With underscores it does not: [A_B], [C], [D] and [A], [B_C], [D]
    share [fits/A_B_C_D.pdf].) *)
Theorem savename_injective (i c cd i' c' cd' : string) :
  forallb (Str.free_of underscore) [i; c; i'; c'] = true ->
  savename_of i c cd = savename_of i' c' cd' ->
  i = i' /\ c = c' /\ cd = cd'.
Proof.
  cbn [forallb]. rewrite !andb_true_iff. intros (Hi & Hc & Hi' & Hc' & _).
  unfold savename_of. intros H. injection H as H.
  change "_" with (String underscore "") in H. cbn [String.append] in H.
  destruct (first_field_inj _ _ _ _ _ Hi Hi' H) as [-> H1].
  destruct (first_field_inj _ _ _ _ _ Hc Hc' H1) as [-> H2].
  by rewrite (append_cancel_r _ _ _ H2).
Qed.

Example savename_underscore_clash :
  savename_of "A_B" "C" "D" = savename_of "A" "B_C" "D".
Proof. reflexivity. Qed.

(** ** The dictionary of a row *)

Lemma dict_get_set {V} (k k' : string) (v : V) (d : dict V) :
  dict_get k (dict_set k' v d) = if String.eqb k k' then Some v else dict_get k d.
Proof.
  induction d as [|[k0 v0] d IH]; cbn.
  - done.
  - destruct (String.eqb_spec k' k0) as [->|Hne]; cbn.
    + by destruct (String.eqb k k0).
    + destruct (String.eqb_spec k k0) as [->|Hk0].
      * by rewrite (proj2 (String.eqb_neq _ _)) by done.
      * exact IH.
Qed.

Lemma dict_keys_set {V} (k : string) (v : V) (d : dict V) :
  dict_keys (dict_set k v d)
  = if bool_decide (k ∈ dict_keys d) then dict_keys d else dict_keys d ++ [k].
Proof.
  unfold dict_keys. induction d as [|[k0 v0] d IH]; cbn; [done|].
  destruct (String.eqb_spec k k0) as [->|Hne]; cbn.
  - by rewrite bool_decide_eq_true_2 by left.
  - rewrite IH. case_bool_decide as H1; case_bool_decide as H2; try done.
    + exfalso. apply H2. by right.
    + exfalso. by apply elem_of_cons in H2 as [?|?].
Qed.

Lemma dict_get_None {V} (k : string) (d : dict V) :
  k ∉ dict_keys d -> dict_get k d = None.
Proof.
  unfold dict_keys. induction d as [|[k0 v0] d IH]; cbn; [done|].
  intros [Hne H]%not_elem_of_cons. by rewrite (proj2 (String.eqb_neq _ _)), IH.
Qed.

(** Looking up after an update: the update wins, the rest is kept. *)
Lemma dict_get_update {V} (k : string) (d other : dict V) :
  NoDup (dict_keys other) ->
  dict_get k (dict_update d other)
  = match dict_get k other with Some v => Some v | None => dict_get k d end.
Proof.
  unfold dict_update, dict_keys. revert d.
  induction other as [|[k' v'] other IH]; intros d Hnd; cbn; [done|].
  apply NoDup_cons in Hnd as [Hk' Hnd]. rewrite (IH _ Hnd), dict_get_set.
  destruct (String.eqb_spec k k') as [->|Hne]; [|done].
  by rewrite (dict_get_None k' other).
Qed.

Lemma filter_ext_in {A} (P Q : A -> Prop)
    `{!forall x, Decision (P x), !forall x, Decision (Q x)} (l : list A) :
  (forall x, x ∈ l -> P x <-> Q x) -> filter P l = filter Q l.
Proof.
  induction l as [|x l IH]; intros Hext; [done|]. rewrite !filter_cons.
  rewrite IH by (intros y Hy; apply Hext; by right).
  destruct (decide (P x)) as [HP|HP], (decide (Q x)) as [HQ|HQ]; try done.
  - exfalso. apply HQ, Hext; [left|done].
  - exfalso. apply HP, Hext; [left|done].
Qed.

(** The keys after an update: the old ones in place, the new ones behind. *)
Lemma dict_keys_update {V} (d other : dict V) :
  NoDup (dict_keys other) ->
  dict_keys (dict_update d other)
  = dict_keys d ++ filter (fun k => k ∉ dict_keys d) (dict_keys other).
Proof.
  unfold dict_update. revert d.
  induction other as [|[k v] other IH]; intros d Hnd; cbn [fold_left].
  - cbn. by rewrite app_nil_r.
  - change (dict_keys ((k, v) :: other)) with (k :: dict_keys other) in *.
    apply NoDup_cons in Hnd as [Hk Hnd].
    rewrite (IH _ Hnd), dict_keys_set. cbn [fst snd]. rewrite filter_cons.
    case_bool_decide as Hin.
    + by rewrite decide_False by (intros Hn; by apply Hn).
    + rewrite decide_True by done. rewrite <- app_assoc. cbn [app]. do 2 f_equal.
      apply filter_ext_in. intros x Hx. rewrite elem_of_app, list_elem_of_singleton.
      split; [tauto|]. intros Hn [? | ->]; [by apply Hn|by apply Hk].
Qed.

Lemma dict_get_scalars (k : string) (params : dict float) :
  dict_get k (prod_map id (fun x => Scalar (VNum x)) <$> params)
  = (fun x => Scalar (VNum x)) <$> dict_get k params.
Proof.
  induction params as [|[k' x] params IH]; [done|]. cbn.
  by destruct (String.eqb k k').
Qed.

(** ** The shape of frames *)




Section MoreRuns.

Context {Data Model Comparison : Type}.
Variable W : World Data Model Comparison.

Implicit Types (s : state Data Model Comparison).
Implicit Types (sc : scored Data Model Comparison) (scs : list (scored Data Model Comparison)).

(** X5.  [info.update(params)] lets the parameters win: a parameter
    named like one of the eight leading entries replaces the value of
    that entry, in place, and adds no column; the other parameters
    follow the eight in their own order; an entry no parameter is
    named after keeps its one-element list. *)
Theorem info_update_overrides (initials commodity condition model_name : string)
    (mo : Model) :
  NoDup (dict_keys (mean_parameters W mo)) ->
  dict_keys (make_info W initials commodity condition model_name mo)
  = info_keys ++ filter (fun k => k ∉ info_keys) (dict_keys (mean_parameters W mo))
  /\ (forall k x, dict_get k (mean_parameters W mo) = Some x ->
        dict_get k (make_info W initials commodity condition model_name mo)
        = Some (Scalar (VNum x)))
  /\ (dict_get "model" (mean_parameters W mo) = None ->
        dict_get "model" (make_info W initials commodity condition model_name mo)
        = Some (Column [VStr model_name])).
Proof.
  intros Hnd. rewrite make_info_eq.
  assert (Hnd' : NoDup (dict_keys (prod_map id (fun x => Scalar (VNum x))
                                     <$> mean_parameters W mo))).
  { unfold dict_keys in *. by rewrite keys_scalars. }
  split; [|split].
  - rewrite (dict_keys_update _ _ Hnd'). unfold dict_keys.
    rewrite keys_scalars. reflexivity.
  - intros k x Hk. by rewrite (dict_get_update _ _ _ Hnd'), dict_get_scalars, Hk.
  - intros Hk. by rewrite (dict_get_update _ _ _ Hnd'), dict_get_scalars, Hk.
Qed.

Lemma notebook_final files scs s out s' :
  notebook W files s = (inr out, s') ->
  score_files W files = inr scs ->
  st_files s' = apply_writes (pdf_writes scs ++ csv_writes W scs) (st_files s)
  /\ st_log s' = st_log s ++ all_events files scs
  /\ st_dirs s' = {["fits"]} ∪ st_dirs s.
Proof.
  intros Hrun Hscs.
  destruct (notebook_inv W _ _ _ _ Hrun) as (scs' & Hscs' & Hne).
  destruct (notebook_ok W files scs s Hscs Hne) as (o & t & Hrun1 & H).
  rewrite Hrun in Hrun1. by injection Hrun1 as <- <-.
Qed.





(** X9.  When the cell has returned, [fit_data[m]] is no longer a
    list of rows but the concatenated frame of model [m], and that
    frame is what the model's [.csv] holds. *)
Theorem fit_data_holds_tables (files : list string) s out s' :
  notebook W files s = (inr out, s') ->
  forall m name cls, model_list !! m = Some (name, cls) ->
    exists r table,
      out !! m = Some (Frame r)
      /\ st_heap s' !! r = Some table
      /\ csv_table s' name = Some (columns table, records table).
Proof.
  intros Hrun m name cls Hm.
  destruct (notebook_inv W _ _ _ _ Hrun) as (scs & Hscs & Hne).
  destruct (notebook_final _ _ _ _ _ Hrun Hscs) as (Hfs & _).
  unfold notebook in Hrun.
  destruct (setup_out_dir_run s) as (s1 & Hs1 & Hd & Hh & _).
  rewrite (bind_inr _ _ _ _ _ Hs1) in Hrun.
  rewrite (fit_all_ok W files scs s1 Hscs Hne) in Hrun.
  2:{ rewrite Hd. apply elem_of_union_l. by apply elem_of_singleton_2. }
  cbv zeta in Hrun. injection Hrun as <- <-. cbn [st_heap].
  set (h := st_heap s1 ++ concat (sc_rows <$> scs)).
  exists (length h + m), (table_of W m scs).
  unfold csv_table. rewrite Hfs, (final_csv W _ _ _ _ _ Hm). cbn [csv_of].
  rewrite (assoc_L (++)). fold h.
  rewrite lookup_app_r by lia.
  replace (length h + m - length h) with m by lia.
  destruct m as [|[|[|[|m]]]]; cbn in Hm |- *; try done.
  by rewrite Nat.add_0_r.
Qed.

(** *** The calls a run makes *)

Lemma score_models_names initials commodity condition data its sms :
  score_models W initials commodity condition data its = inr sms ->
  sm_name <$> sms = its.*1.
Proof.
  revert sms. induction its as [|it its IH]; intros sms; cbn [score_models].
  - by intros [= <-].
  - unfold score_model at 1. destruct (fit_one W data it.2); [done|].
    destruct (DataFrame_from_dict _); [done|].
    destruct (score_models W _ _ _ _ its); [done|].
    intros [= <-]. cbn. by rewrite (IH _ eq_refl).
Qed.

Lemma score_file_names fname sc :
  score_file W fname = inr sc -> sm_name <$> sc_models sc = dict_keys model_list.
Proof.
  unfold score_file.
  destruct (parse_filename fname) as [|[[i c] cd]]; [done|].
  destruct (read_csv W fname); [done|].
  destruct (score_models W _ _ _ _ _) as [|sms] eqn:E; [done|].
  destruct (pm_compare W _); [done|]. intros [= <-]. cbn.
  by apply score_models_names in E.
Qed.

Lemma model_events_fits (sms : list (scored_model Model)) :
  omap fit_name (model_events (Comparison:=Comparison) sms) = sm_name <$> sms.
Proof. induction sms as [|sm sms IH]; [done|]. cbn. f_equal. exact IH. Qed.

Lemma model_events_quiet (sms : list (scored_model Model)) :
  omap read_path (model_events (Comparison:=Comparison) sms) = []
  /\ omap savefig_path (model_events (Comparison:=Comparison) sms) = [].
Proof. induction sms as [|sm sms [IH1 IH2]]; [done|]. split; [exact IH1|exact IH2]. Qed.

Lemma sc_events_calls fname sc :
  score_file W fname = inr sc ->
  omap read_path (sc_events fname sc) = [fname]
  /\ omap fit_name (sc_events fname sc) = dict_keys model_list
  /\ omap savefig_path (sc_events fname sc) = [sc_savename sc]
  /\ savename_of_file fname = Some (sc_savename sc).
Proof.
  intros Hsc. unfold sc_events.
  destruct (model_events_quiet (sc_models sc)) as [Hr Hs].
  cbn [omap list_omap read_path fit_name savefig_path].
  rewrite !omap_app, Hr, Hs, model_events_fits, (score_file_names _ _ Hsc).
  cbn [omap list_omap read_path fit_name savefig_path option_bind mbind app].
  split; [done|]. split; [by rewrite app_nil_r|]. split; [done|].
  unfold savename_of_file. by rewrite (score_file_ids W _ _ Hsc).
Qed.

(** X10.  A returning run reads every file once, in the order of the
    list; for every file it fits the four models in the order of
    [model_list]; and it saves one figure per file, in the same
    order, under the path made from the file's name. *)
Theorem calls_in_order (files : list string) s out s' :
  notebook W files s = (inr out, s') ->
  exists evs,
    st_log s' = st_log s ++ evs
    /\ omap read_path evs = files
    /\ omap fit_name evs
       = files ≫= (fun _ => ["Exponential"; "Hyperbolic"; "ModifiedRachlin"; "Hyperboloid"])
    /\ Some <$> omap savefig_path evs = savename_of_file <$> files.
Proof.
  intros Hrun.
  destruct (notebook_inv W _ _ _ _ Hrun) as (scs & Hscs & Hne).
  destruct (notebook_final _ _ _ _ _ Hrun Hscs) as (_ & Hlog & _).
  exists (all_events files scs). split; [done|]. unfold all_events.
  rewrite !omap_app. rewrite model_list_eq. cbn [fmap list_fmap omap list_omap read_path fit_name savefig_path].
  rewrite !app_nil_r. clear Hrun Hlog Hne.
  apply score_files_Forall2 in Hscs.
  induction Hscs as [|f sc files scs Hf _ (IH1 & IH2 & IH3)]; [done|].
  destruct (sc_events_calls _ _ Hf) as (H1 & H2 & H3 & H4).
  cbn [zip_with concat mbind list_bind fmap list_fmap].
  rewrite !omap_app, H1, H2, H3, IH1, IH2, fmap_app, IH3. cbn. by rewrite H4.
Qed.

(** *** Tables are written together or not at all *)



(** *** What a run writes *)




Section Paths.

Variable paths : list string.










End Paths.





(** *** Runs that raise *)

Lemma disk_kept_refl s : disk_kept s s.
Proof. repeat split. exists []. by rewrite app_nil_r. Qed.

Lemma disk_kept_trans s1 s2 s3 : disk_kept s1 s2 -> disk_kept s2 s3 -> disk_kept s1 s3.
Proof.
  intros (F1 & D1 & e1 & L1 & S1 & C1) (F2 & D2 & e2 & L2 & S2 & C2).
  split; [by rewrite F2|]. split; [by rewrite D2|].
  exists (e1 ++ e2). rewrite L2, L1, app_assoc, !omap_app, S1, S2, C1, C2. done.
Qed.

Lemma emit_disk_kept ev :
  savefig_path ev = None -> csv_path ev = None ->
  preserves disk_kept (emit ev : M Data Model Comparison ()).
Proof.
  intros Hs Hc s r s' [= _ <-]. repeat split. exists [ev]. cbn. by rewrite Hs, Hc.
Qed.

Lemma alloc_disk_kept df : preserves disk_kept (alloc df : M Data Model Comparison loc).
Proof. intros s r s' [= _ <-]. repeat split. exists []. cbn. by rewrite app_nil_r. Qed.

Ltac preserving_with Hrefl Htrans leaf :=
  repeat first
    [ leaf
    | apply (preserves_ret _ Hrefl)
    | apply (preserves_raise _ Hrefl)
    | apply (preserves_lift _ Hrefl)
    | apply (preserves_getitem _ Hrefl)
    | apply (preserves_setitem _ Hrefl)
    | apply (preserves_deref _ Hrefl)
    | apply (preserves_foldM _ Hrefl Htrans); intros
    | apply (preserves_bind _ Htrans); [|intros]
    | match goal with
      | |- preserves _ (match ?x with _ => _ end) => destruct x
      end ].

Lemma fit_model_disk_kept initials commodity condition data vars it :
  preserves disk_kept (fit_model W initials commodity condition data vars it).
Proof.
  unfold fit_model. destruct vars as [[fd models] ax0], it as [m [name cls]].
  preserving_with disk_kept_refl disk_kept_trans
    ltac:(first [by apply emit_disk_kept|apply alloc_disk_kept]).
Qed.

(** A file one of whose steps raises leaves the disk alone; a file
    whose steps all succeed but which finds no folder [fits] has been
    read and fitted when [savefig] raises. *)
Lemma process_file_raises fname a b c d s :
  match score_file W fname with
  | inl e => exists s', process_file W [a; b; c; d] fname s = (inl e, s')
                        /\ disk_kept s s'
  | inr sc =>
      "fits" ∉ st_dirs s ->
      process_file W [a; b; c; d] fname s
      = (inl (FileNotFoundError (sc_savename sc)),
         mkState (st_heap s ++ sc_rows sc) (st_dirs s) (st_files s)
                 (st_log s ++ sc_events fname sc))
  end.
Proof.
  unfold score_file, process_file. rewrite bind_eq. cbn [lift].
  destruct (parse_filename fname) as [e|[[initials commodity] condition]] eqn:Ep.
  { exists s. split; [done|apply disk_kept_refl]. }
  destruct (parse_filename_fields _ _ _ _ Ep) as (Hi & Hc & Hd).
  rewrite bind_eq. cbn [emit]. rewrite bind_eq. cbn [lift].
  set (s0 := mkState (st_heap s) (st_dirs s) (st_files s) (st_log s ++ [EvReadCsv fname])).
  assert (H0 : disk_kept s s0).
  { repeat split. by exists [EvReadCsv fname]. }
  destruct (read_csv W fname) as [e|data] eqn:Er.
  { by exists s0. }
  rewrite bind_eq.
  destruct (score_models W initials commodity condition data model_list)
    as [e|sms] eqn:Em.
  { destruct (fit_models_fail W _ _ _ _ a b c d [PlotData data] e s0 Em) as [s' Hs'].
    rewrite Hs'. exists s'. split; [done|].
    eapply disk_kept_trans; [exact H0|].
    eapply (preserves_foldM _ disk_kept_refl disk_kept_trans); [|exact Hs'].
    intros. apply fit_model_disk_kept. }
  destruct (fit_models_ok W _ _ _ _ a b c d [PlotData data] sms s0 Em) as [-> Hlen].
  destruct sms as [|sm0 [|sm1 [|sm2 [|sm3 [|? ?]]]]]; try done. clear Hlen.
  cbn [fmap list_fmap compose st_heap st_dirs st_files st_log s0].
  unfold model_at. rewrite !bind_eq. cbn [getitem lookup list_lookup mret M_ret lift].
  unfold mret, M_ret. rewrite !bind_eq.
  destruct (pm_compare W _) as [e|comp] eqn:Ec.
  { eexists. split; [done|]. repeat split.
    exists (EvReadCsv fname :: model_events [sm0; sm1; sm2; sm3]).
    cbn [st_log]. rewrite <- app_assoc. split; [done|].
    split; reflexivity. }
  intros Hno.
  cbn [lift]. rewrite bind_eq. cbn [emit]. rewrite bind_eq.
  unfold plt_savefig. rewrite bind_eq. cbn [emit].
  rewrite (open_w_ok _ _ _ _ _ Hi Hc Hd).
  cbn [st_dirs]. rewrite (bool_decide_eq_false_2 _ Hno).
  unfold sc_rows, sc_events, sc_figure, sc_savename.
  cbn [st_heap st_dirs st_files st_log sc_models sc_initials sc_commodity
       sc_condition sc_comparison sc_data fmap list_fmap].
  rewrite <- !app_assoc. reflexivity.
Qed.

Lemma files_loop_shape files s fd1 s1 :
  foldM (process_file W) [[]; []; []; []] files s = (inr fd1, s1) ->
  exists a b c d, fd1 = [a; b; c; d].
Proof.
  intros Hloop.
  destruct (files_loop_inv W _ _ _ _ _ _ _ _ Hloop) as (scs & Hscs & [->|Hd]).
  - cbn in Hloop. injection Hloop as <- _. by eexists _, _, _, _.
  - destruct (files_loop_ok W files scs [] [] [] [] [] [] [] [] s Hscs Hd)
      as (a & b & c & d & Hl & _); try by constructor.
    rewrite Hl in Hloop. injection Hloop as <- _. by eexists _, _, _, _.
Qed.

(** X14.  The first file one of whose steps raises (reading, building
    or fitting a model, building a row, comparing the models) ends the
    run with that exception, whatever files follow; the disk is then
    as the files before it left it: their figures are there, no
    further figure and no table has been written. *)
Theorem first_failure_halts (pre post : list string) (fname : string) (e : exn)
    s fd1 s1 :
  score_file W fname = inl e ->
  foldM (process_file W) [[]; []; []; []] pre s = (inr fd1, s1) ->
  exists s',
    fit_all W (pre ++ fname :: post) s = (inl e, s')
    /\ st_files s' = st_files s1
    /\ exists evs, st_log s' = st_log s1 ++ evs
                   /\ omap savefig_path evs = [] /\ omap csv_path evs = [].
Proof.
  intros Hf Hpre. rewrite fit_all_app, Hpre.
  destruct (files_loop_shape _ _ _ _ Hpre) as (a & b & c & d & ->).
  pose proof (process_file_raises fname a b c d s1) as Hr. rewrite Hf in Hr.
  destruct Hr as (s' & Hs' & Hfiles & _ & Hlog).
  exists s'. split; [|done].
  cbn [foldM]. rewrite bind_eq, bind_eq, Hs'. done.
Qed.


(** *** Figures that share a path *)

Lemma apply_writes_notin (ws : list (string * content Data Model Comparison)) fs p :
  p ∉ ws.*1 -> apply_writes ws fs !! p = fs !! p.
Proof.
  unfold apply_writes. revert fs. induction ws as [|[q c] ws IH]; intros fs Hp; [done|].
  cbn in Hp. apply not_elem_of_cons in Hp as [Hne Hp]. cbn [foldl].
  rewrite (IH _ Hp). by apply lookup_insert_ne.
Qed.

Lemma apply_writes_last (ws1 ws2 : list (string * content Data Model Comparison)) p c fs :
  p ∉ ws2.*1 -> apply_writes (ws1 ++ (p, c) :: ws2) fs !! p = Some c.
Proof.
  intros Hp. unfold apply_writes. rewrite foldl_app. cbn [foldl].
  etrans; [apply (apply_writes_notin ws2 _ p Hp)|apply lookup_insert_eq].
Qed.

(** X16.  Files whose names agree on initials, commodity and condition
    share one figure path, and the later one wins: after a returning
    run the figure at the path of a file is the figure of that file
    whenever no later file of the list has the same path, so of a
    group of sessions only the last keeps its figure. *)
Theorem pdf_last_wins (files : list string) s out s' :
  notebook W files s = (inr out, s') ->
  forall k fname sc,
    files !! k = Some fname ->
    score_file W fname = inr sc ->
    (forall j fname', k < j -> files !! j = Some fname' ->
       savename_of_file fname' <> Some (sc_savename sc)) ->
    st_files s' !! sc_savename sc = Some (Pdf (sc_figure sc)).
Proof.
  intros Hrun k f sc Hk Hsc Hlater.
  destruct (notebook_inv W _ _ _ _ Hrun) as (scs & Hscs & Hne).
  destruct (notebook_final _ _ _ _ _ Hrun Hscs) as (-> & _).
  pose proof (score_files_Forall2 W _ _ Hscs) as HF.
  destruct (Forall2_lookup_l _ _ _ _ _ HF Hk) as (sc' & Hk' & Hsc').
  rewrite Hsc in Hsc'. injection Hsc' as <-.
  rewrite <- (take_drop_middle scs k sc Hk'). unfold pdf_writes.
  rewrite fmap_app, fmap_cons, <- app_assoc. cbn [app].
  apply apply_writes_last. rewrite fmap_app, elem_of_app. intros [Hin|Hin].
  - rewrite <- list_fmap_compose in Hin.
    apply list_elem_of_fmap in Hin as (sc2 & Hp & Hin). cbn in Hp.
    apply list_elem_of_lookup in Hin as [i Hi]. rewrite lookup_drop in Hi.
    destruct (Forall2_lookup_r _ _ _ _ _ HF Hi) as (f2 & Hf2 & Hsc2).
    apply (Hlater (S k + i) f2); [lia|done|].
    unfold savename_of_file. rewrite (score_file_ids W _ _ Hsc2).
    by rewrite Hp.
  - rewrite csv_paths in Hin. apply list_elem_of_fmap in Hin as (kv & Hp & _).
    by apply savename_not_csv in Hp.
Qed.

(** *** The rows, file by file *)

Lemma rows_of_Forall2 (Q : string -> DataFrame -> Prop) files scs m it :
  score_files W files = inr scs ->
  model_list !! m = Some it ->
  (forall f sc sm,
      f ∈ files -> score_file W f = inr sc -> sc_models sc !! m = Some sm ->
      score_model W (sc_initials sc) (sc_commodity sc) (sc_condition sc)
        (sc_data sc) it = inr sm ->
      Q f (sm_row sm)) ->
  Forall2 Q files (rows_of m scs).
Proof.
  intros Hscs%score_files_Forall2 Hm HQ.
  induction Hscs as [|f sc files scs Hf _ IH]; [constructor|].
  unfold rows_of. cbn [omap list_omap].
  destruct (score_file_lookup W _ _ Hf m it Hm) as (sm & Hsm & Hs).
  unfold sc_rows at 1. rewrite list_lookup_fmap, Hsm. cbn.
  constructor.
  - eapply (HQ f sc sm); [left|done..].
  - apply IH. intros f' sc' sm' Hin. apply HQ. by right.
Qed.

Lemma concat_single_records (P : string -> list value -> Prop)
    (files : list string) (rows : list DataFrame) :
  Forall2 (fun f row => exists r, records row = [r] /\ P f r) files rows ->
  Forall2 P files (concat (records <$> rows)).
Proof.
  induction 1 as [|f row files rows (r & Hr & HP) _ IH]; [constructor|].
  cbn. rewrite Hr. by constructor.
Qed.

(** X17.  The rows of every table follow the files: the k-th row of
    each [.csv] carries, under id, commodity and condition, the three
    fields parsed from the name of the k-th file.  (The parameter
    names are taken as in C3, so that the columns of all rows agree.) *)
Theorem rows_follow_files (names : model_class -> list string)
    (files : list string) s out s' :
  names_fresh names = true ->
  forallb (params_named W names) files = true ->
  notebook W files s = (inr out, s') ->
  forall model_name, model_name ∈ dict_keys model_list ->
    exists header rows,
      csv_table s' model_name = Some (header, rows)
      /\ Forall2 (fun fname r =>
                    exists initials commodity condition,
                      parse_filename fname = inr (initials, commodity, condition)
                      /\ cell header r "id" = Some (VStr initials)
                      /\ cell header r "commodity" = Some (VStr commodity)
                      /\ cell header r "condition" = Some (VStr condition))
                 files rows.
Proof.
  intros Hfresh Hnamed Hrun name (m & cls & Hm)%model_list_keys.
  destruct (notebook_inv W _ _ _ _ Hrun) as (scs & Hscs & Hne).
  destruct (notebook_final _ _ _ _ _ Hrun Hscs) as (Hfs & _).
  pose proof (names_fresh_lookup _ _ _ _ Hfresh Hm) as Hnd.
  set (K := info_keys ++ names cls) in *.
  set (P := fun (fname : string) (r : list value) =>
              exists initials commodity condition,
                parse_filename fname = inr (initials, commodity, condition)
                /\ cell K r "id" = Some (VStr initials)
                /\ cell K r "commodity" = Some (VStr commodity)
                /\ cell K r "condition" = Some (VStr condition)).
  assert (Hrows : Forall2 (fun f row => columns row = K
                                        /\ exists r, records row = [r] /\ P f r)
                          files (rows_of m scs)).
  { eapply rows_of_Forall2; [done..|].
    intros f sc sm Hf Hsc Hsm Hs.
    rewrite forallb_forall in Hnamed.
    pose proof (params_named_lookup W names f sc m sm name cls
                  (Hnamed f (proj1 (list_elem_of_In _ _) Hf)) Hsc Hsm Hm) as Hk.
    rewrite (score_model_row W _ _ _ _ _ _ _ Hs) by (by rewrite Hk).
    rewrite Hk. cbn [columns records]. split; [done|].
    eexists. split; [done|].
    exists (sc_initials sc), (sc_commodity sc), (sc_condition sc).
    split; [by apply (score_file_ids W)|]. done. }
  assert (Hm4 : m < 4) by (apply lookup_lt_Some in Hm; exact Hm).
  pose proof (score_files_models W _ _ Hscs) as H4.
  assert (Hscs_ne : scs <> []).
  { intros ->. apply score_files_length in Hscs. by destruct files. }
  pose proof (table_of_concat W m scs H4 Hm4 Hscs_ne) as Ht.
  rewrite (pd_concat_aligned _ K) in Ht.
  - injection Ht as Ht.
    exists K, (concat (records <$> rows_of m scs)).
    unfold csv_table. rewrite Hfs, (final_csv W _ _ _ _ _ Hm), <- Ht. cbn [csv_of columns records].
    split; [done|]. apply concat_single_records.
    eapply Forall2_impl; [exact Hrows|]. by intros f row [_ Hr].
  - intros E. apply (f_equal length) in E. rewrite rows_of_length in E by done.
    by destruct scs.
  - eapply Forall2_Forall_r; [exact Hrows|]. apply Forall_forall.
    by intros f _ row [Hc _].
Qed.

(** *** The exceptions of a run *)



End MoreRuns.

(** ** The further properties in the demonstration worlds *)

Lemma demo_run :
  notebook Demo.world Demo.files Demo.s0
  = (inr [Frame 8; Frame 9; Frame 10; Frame 11], Demo.s1).
Proof. vm_compute. reflexivity. Qed.

Lemma demo_names :
  names_fresh Demo.param_names = true
  /\ forallb (params_named Demo.world Demo.param_names) Demo.files = true.
Proof. split; vm_compute; reflexivity. Qed.

Lemma parse_filename_inv_witness :
  exists date time,
    basename "../data/discounting/AB-money-sated-20170108-1130.txt"
    = join5 "AB" "money" "sated" date time
    /\ forallb field_ok ["AB"; "money"; "sated"; date; time] = true.
Proof.
  apply (parse_filename_inv "../data/discounting/AB-money-sated-20170108-1130.txt").
  reflexivity.
Defined.

Lemma parse_filename_folder_witness :
  parse_filename ("../data-2017/pilot-study" +:+ "/" +:+ "AB-food-hungry-20170101-1200.txt")
  = parse_filename "AB-food-hungry-20170101-1200.txt".
Proof.
  apply (parse_filename_folder "../data-2017/pilot-study" "AB-food-hungry-20170101-1200.txt").
  reflexivity.
Defined.

Lemma savename_injective_witness :
  savename_of "AB" "food" "hungry" = savename_of "AB" "food" "hungry"
  /\ "AB" = "AB" /\ "food" = "food" /\ "hungry" = "hungry".
Proof.
  split; [reflexivity|].
  apply (savename_injective "AB" "food" "hungry" "AB" "food" "hungry");
    reflexivity.
Defined.

Lemma info_update_overrides_witness :
  dict_keys (make_info DemoB.clash "AB" "food" "hungry" "Exponential"
               (Exponential, Demo.trials))
  = info_keys ++ ["k"]
  /\ dict_get "AUC" (make_info DemoB.clash "AB" "food" "hungry" "Exponential"
                       (Exponential, Demo.trials))
     = Some (Scalar (VNum 0.25%float)).
Proof.
  assert (Hnd : NoDup (dict_keys (mean_parameters DemoB.clash (Exponential, Demo.trials)))).
  { apply (bool_decide_unpack _). vm_compute. exact I. }
  destruct (info_update_overrides DemoB.clash "AB" "food" "hungry" "Exponential"
              (Exponential, Demo.trials) Hnd) as (Hkeys & Hget & _).
  split; [exact Hkeys|]. apply Hget. reflexivity.
Defined.



Lemma fit_data_holds_tables_witness :
  exists r table,
    [Frame 8; Frame 9; Frame 10; Frame 11] !! 2 = Some (Frame r)
    /\ st_heap Demo.s1 !! r = Some table
    /\ csv_table Demo.s1 "ModifiedRachlin" = Some (columns table, records table).
Proof.
  apply (fit_data_holds_tables Demo.world Demo.files Demo.s0 _ _ demo_run
           2 "ModifiedRachlin" ModifiedRachlin).
  reflexivity.
Defined.

Lemma calls_in_order_witness :
  exists evs,
    st_log Demo.s1 = st_log Demo.s0 ++ evs
    /\ omap read_path evs = Demo.files
    /\ omap fit_name evs
       = Demo.files ≫= (fun _ => ["Exponential"; "Hyperbolic"; "ModifiedRachlin"; "Hyperboloid"])
    /\ Some <$> omap savefig_path evs = savename_of_file <$> Demo.files.
Proof. apply (calls_in_order Demo.world Demo.files Demo.s0 _ _ demo_run). Defined.




Lemma first_failure_halts_witness :
  exists s',
    fit_all Demo.world
      (["../data/discounting/AB-food-hungry-20170101-1200.txt"]
         ++ "../data/discounting/notes.txt"
         :: ["../data/discounting/AB-money-sated-20170108-1130.txt"])
      Demo.s_ready
    = (inl (ValueError "not enough values to unpack (expected 5, got 1)"), s')
    /\ st_files s' !! "fits/AB_food_hungry.pdf" <> None
    /\ st_files s' !! "fits/AB_money_sated.pdf" = None.
Proof.
  assert (Hpre : foldM (process_file Demo.world) [[]; []; []; []]
                   ["../data/discounting/AB-food-hungry-20170101-1200.txt"] Demo.s_ready
                 = (inr [[0]; [1]; [2]; [3]],
                    (foldM (process_file Demo.world) [[]; []; []; []]
                       ["../data/discounting/AB-food-hungry-20170101-1200.txt"]
                       Demo.s_ready).2))
    by (vm_compute; reflexivity).
  destruct (first_failure_halts Demo.world
              ["../data/discounting/AB-food-hungry-20170101-1200.txt"]
              ["../data/discounting/AB-money-sated-20170108-1130.txt"]
              "../data/discounting/notes.txt" _ Demo.s_ready _ _ eq_refl Hpre)
    as (s' & Hrun & Hfiles & _).
  exists s'. split; [exact Hrun|]. rewrite Hfiles.
  split; vm_compute; [discriminate|reflexivity].
Defined.


Lemma pdf_last_wins_witness :
  exists sc,
    score_file DemoB.lab "../data/discounting/AB-food-hungry-20170102-0900.txt" = inr sc
    /\ sc_savename sc = "fits/AB_food_hungry.pdf"
    /\ st_files (notebook DemoB.lab DemoB.twice Demo.s0).2 !! "fits/AB_food_hungry.pdf"
       = Some (Pdf (sc_figure sc)).
Proof.
  destruct (score_file DemoB.lab "../data/discounting/AB-food-hungry-20170102-0900.txt")
    as [e|sc] eqn:Hsc; [vm_compute in Hsc; discriminate|].
  assert (Hname : sc_savename sc = "fits/AB_food_hungry.pdf").
  { apply (f_equal (fun r => match r with inr sc => sc_savename sc | inl _ => "" end)) in Hsc.
    rewrite <- Hsc. vm_compute. reflexivity. }
  assert (Hrun : notebook DemoB.lab DemoB.twice Demo.s0
                 = (inr [Frame 8; Frame 9; Frame 10; Frame 11],
                    (notebook DemoB.lab DemoB.twice Demo.s0).2))
    by (vm_compute; reflexivity).
  exists sc. split; [reflexivity|]. split; [exact Hname|]. rewrite <- Hname.
  apply (pdf_last_wins DemoB.lab DemoB.twice Demo.s0 _ _ Hrun 1
           "../data/discounting/AB-food-hungry-20170102-0900.txt" sc eq_refl Hsc).
  intros [|[|j]] fname' Hj Hfname'; [lia|lia|discriminate Hfname'].
Defined.

Lemma rows_follow_files_witness :
  exists header rows,
    csv_table Demo.s1 "Hyperbolic" = Some (header, rows)
    /\ Forall2 (fun fname r =>
                  exists initials commodity condition,
                    parse_filename fname = inr (initials, commodity, condition)
                    /\ cell header r "id" = Some (VStr initials)
                    /\ cell header r "commodity" = Some (VStr commodity)
                    /\ cell header r "condition" = Some (VStr condition))
               Demo.files rows.
Proof.
  apply (rows_follow_files Demo.world Demo.param_names Demo.files Demo.s0 _ _
           (proj1 demo_names) (proj2 demo_names) demo_run "Hyperbolic").
  vm_compute. right. left.
Defined.

